(** * ECS service scheduler: a shallow embedding of
      [source/lambda/schedulers/ecs_service.py] and the properties of its
      discovery, maintenance-window, tagging and start/stop paths. *)

From Stdlib Require Import ZArith NArith List Ascii String Lia.
From stdpp Require Import gmap list fin_maps.

Set Default Proof Using "Type".

(** ** Python values *)

(** A Python 3 [str] is a sequence of Unicode code points. *)
Abbreviation pystr := (list N).

(** String literals of the source, as code points. *)
Definition py (s : string) : pystr :=
  (λ a, N_of_ascii a) <$> list_ascii_of_string s.

(** The exceptions the modelled code can meet. *)
Inductive exn :=
| ValueError (msg : pystr)
| KeyError (key : pystr)
| ClientError (code : pystr).

(** A computation that returns or raises. *)
Abbreviation result := (sum exn).

Definition rbind {A B} (m : result A) (k : A → result B) : result B :=
  match m with
  | inl e => inl e
  | inr a => k a
  end.

#[global] Instance result_bind : MBind (sum exn) := λ A B k m, rbind m k.
#[global] Instance result_ret : MRet (sum exn) := λ A a, inr a.

(** [s.split(sep)] for a one-character separator. *)
Fixpoint split (sep : N) (s : pystr) : list pystr :=
  match s with
  | [] => [[]]
  | c :: s' =>
      if (c =? sep)%N then [] :: split sep s'
      else match split sep s' with
           | [] => [[c]]
           | w :: ws => (c :: w) :: ws
           end
  end.

(** [s.split(sep, 1)]: at most one cut, at the first separator. *)
Fixpoint split1 (sep : N) (s : pystr) : list pystr :=
  match s with
  | [] => [[]]
  | c :: s' =>
      if (c =? sep)%N then [[]; s']
      else match split1 sep s' with
           | [] => [[c]]
           | w :: ws => (c :: w) :: ws
           end
  end.

(** [a, b = xs]: unpacking into two names raises [ValueError] unless the
    list has exactly two elements. *)
Definition unpack2 {A} (xs : list A) : result (A * A) :=
  match xs with
  | [a; b] => inr (a, b)
  | [] | [_] => inl (ValueError (py "not enough values to unpack"))
  | _ => inl (ValueError (py "too many values to unpack"))
  end.

Definition chr_dash : N := 45.
Definition chr_colon : N := 58.

(** ** Schedules *)

(** [datetime.time] at minute resolution. *)
Record time := mk_time { hour : nat; minute : nat }.

(** [RunningPeriod(name=, begintime=, endtime=, weekdays=)]; a time is
    [None] where [get_time_from_string] returned [None]. *)
Record RunningPeriod := mk_RunningPeriod {
  rp_name : pystr;
  begintime : option time;
  endtime : option time;
  weekdays : gset nat
}.

(** One entry of the [periods] list: a dict with the key ["period"] and,
    in the two-period branch only, the key ["instancetype"] bound to
    [None]. *)
Record period_entry := mk_period_entry {
  period : RunningPeriod;
  instancetype : option (option pystr)
}.

(** [InstanceSchedule(name=, periods=, timezone=, enforced=)]. *)
Record InstanceSchedule := mk_InstanceSchedule {
  sched_name : pystr;
  periods : list period_entry;
  timezone : pystr;
  enforced : bool
}.

Definition MAINTENANCE_SCHEDULE_NAME : pystr :=
  py "RDS preferred Maintenance Window Schedule".
Definition MAINTENANCE_PERIOD_NAME : pystr :=
  py "RDS preferred Maintenance Window Period".

Section MaintenanceWindow.

(** [WeekdaySetBuilder().build] and
    [SchedulerConfigBuilder.get_time_from_string] live in the
    [configuration] package; the builder here is stated for any such
    pair. *)
Variable weekdays_build : pystr → result (gset nat).
Variable get_time_from_string : pystr → option time.

Definition build_schedule_from_maintenance_window (period_str : pystr)
  : result InstanceSchedule :=
  '(start_string, stop_string) ← unpack2 (split chr_dash period_str);
  '(start_day_string, start_hhmm_string) ← unpack2 (split1 chr_colon start_string);
  '(stop_day_string, stop_hhmm_string) ← unpack2 (split1 chr_colon stop_string);
  start_weekday ← weekdays_build start_day_string;
  let start_time := get_time_from_string start_hhmm_string in
  let end_time := get_time_from_string stop_hhmm_string in
  periods ←
    (if decide (start_day_string = stop_day_string) then
       inr [ {| period := {| rp_name := MAINTENANCE_PERIOD_NAME;
                             begintime := start_time;
                             endtime := end_time;
                             weekdays := start_weekday |};
                instancetype := None |} ]
     else
       let end_time_day1 := get_time_from_string (py "23:59") in
       let begin_time_day2 := get_time_from_string (py "00:00") in
       stop_weekday ← weekdays_build stop_day_string;
       inr [ {| period := {| rp_name := MAINTENANCE_PERIOD_NAME ++ py "-" ++ start_day_string;
                             begintime := start_time;
                             endtime := end_time_day1;
                             weekdays := start_weekday |};
                instancetype := Some None |};
             {| period := {| rp_name := MAINTENANCE_PERIOD_NAME ++ py "-" ++ stop_day_string;
                             begintime := begin_time_day2;
                             endtime := end_time;
                             weekdays := stop_weekday |};
                instancetype := Some None |} ]);
  inr {| sched_name := MAINTENANCE_SCHEDULE_NAME;
         periods := periods;
         timezone := py "UTC";
         enforced := true |}.

End MaintenanceWindow.

(** ** Tag values *)

(** [\s] in a [str] pattern: the code points for which [str.isspace]
    holds. *)
Definition is_space (c : N) : bool :=
  (((9 <=? c) && (c <=? 13)) || ((28 <=? c) && (c <=? 32))
   || (c =? 133) || (c =? 160) || (c =? 5760)
   || ((8192 <=? c) && (c <=? 8202))
   || (c =? 8232) || (c =? 8233) || (c =? 8239) || (c =? 8287)
   || (c =? 12288))%N.

(** The characters listed between [[^] and [ ]] in
    [RESTRICTED_ECS_TAG_VALUE_SET_CHARACTERS], that is
    [a-zA-Z0-9\s_\.:+/=\\@-]. *)
Definition in_restricted_set (c : N) : bool :=
  (((97 <=? c) && (c <=? 122)) || ((65 <=? c) && (c <=? 90))
   || ((48 <=? c) && (c <=? 57))
   || is_space c
   || (c =? 95) || (c =? 46) || (c =? 58) || (c =? 43) || (c =? 47)
   || (c =? 61) || (c =? 92) || (c =? 64) || (c =? 45))%N.

Definition chr_space : N := 32.
Definition chr_newline : N := 10.

(** [re.sub(RESTRICTED_ECS_TAG_VALUE_SET_CHARACTERS, " ", s)]: the pattern
    is one negated character class, so every character outside the class
    is a match of length one and is replaced by a space. *)
Definition re_sub_restricted (s : pystr) : pystr :=
  (λ c, if in_restricted_set c then c else chr_space) <$> s.

(** [s.replace("\n", " ")]. *)
Definition replace_newline (s : pystr) : pystr :=
  (λ c, if (c =? chr_newline)%N then chr_space else c) <$> s.

(** A tag record is a dict from field name to string. *)
Abbreviation Tag := (gmap pystr pystr).

(** ** Logging and the ECS client *)

(** One constructor per message template of the module, with the
    arguments the call passes to the logger. *)
Inductive log_record :=
| WARN_RDS_TAG_VALUE (original_value : pystr) (t : Tag) (value : pystr)
| INF_REMOVE_KEYS (which : pystr) (keys : list pystr) (arn : pystr)
| INF_ADD_TAGS (which : pystr) (tags : list Tag) (arn : pystr)
| WARN_TAGGING_STOPPED (id : pystr) (ex : exn)
| WARN_TAGGING_STARTED (id : pystr) (ex : exn)
| ERR_STOPPING_INSTANCE (kind : pystr) (arn : pystr) (ex : exn)
| ERR_STARTING_INSTANCE (kind : pystr) (arn : pystr) (ex : exn).

(** The calls the start and stop paths make on the client. *)
Inductive api_call :=
| update_service (cluster service : pystr) (desiredCount : Z)
| untag_resource (resourceArn : pystr) (tags : list pystr)
| tag_resource (resourceArn : pystr) (tags : list Tag).

Inductive event :=
| Call (a : api_call)
| Log (r : log_record).

(** The scheduler configuration as far as this module reads it. *)
Record Config := mk_Config {
  tag_name : pystr;
  started_tags : list Tag;
  stopped_tags : list Tag
}.

(** The state the methods act on: the configuration object handed in by
    the caller ([self._config] is that very object, not a copy) and
    everything done so far, oldest first. *)
Record state := mk_state {
  config : Config;
  trace : list event
}.

(** The client: whether a call raises may depend on all that happened
    before it. [None] is a normal return. *)
Definition client := list event → api_call → option exn.

(** State that survives a raise, plus a result or an exception. *)
Definition M (A : Type) : Type := state → result A * state.

#[global] Instance M_ret : MRet M := λ A a st, (inr a, st).
#[global] Instance M_bind : MBind M := λ A B k m st,
  match m st with
  | (inl e, st') => (inl e, st')
  | (inr a, st') => k a st'
  end.

Definition lift {A} (r : result A) : M A := λ st, (r, st).

Definition emit (e : event) : M unit := λ st,
  (inr (), {| config := config st; trace := trace st ++ [e] |}).

Definition log (r : log_record) : M unit := emit (Log r).

(** A call is recorded whether or not it raises. *)
Definition call (c : client) (a : api_call) : M unit := λ st,
  let st' := {| config := config st; trace := trace st ++ [Call a] |} in
  match c (trace st) a with
  | None => (inr (), st')
  | Some e => (inl e, st')
  end.

Definition get_config : M Config := λ st, (inr (config st), st).

Definition set_started_tags (ts : list Tag) : M unit := λ st,
  (inr (), {| config := {| tag_name := tag_name (config st);
                           started_tags := ts;
                           stopped_tags := stopped_tags (config st) |};
              trace := trace st |}).

Definition set_stopped_tags (ts : list Tag) : M unit := λ st,
  (inr (), {| config := {| tag_name := tag_name (config st);
                           started_tags := started_tags (config st);
                           stopped_tags := ts |};
              trace := trace st |}).

Definition pass : M unit := mret ().

(** [try: body except Exception as ex: handler(ex)]. *)
Definition try_except {A} (body : M A) (handler : exn → M A) : M A := λ st,
  match body st with
  | (inl e, st') => handler e st'
  | (inr a, st') => (inr a, st')
  end.

(** ** Validation of tag values *)

(** The body of the loop of [_validate_ecs_tag_values] on one record of
    the copy: the new record and the warning logged, if any. *)
Definition validate_tag (t : Tag) : Tag * list log_record :=
  let original_value := default [] (t !! py "value") in
  let value := replace_newline (re_sub_restricted original_value) in
  if decide (value ≠ original_value)
  then (<[py "value" := value]> t, [WARN_RDS_TAG_VALUE original_value t value])
  else (t, []).

(** [_validate_ecs_tag_values] as a function of the list: the deep copy
    it returns and the warnings it logs, in order. *)
Definition validate_ecs_tag_values (tags : list Tag) : list Tag * list log_record :=
  (fst ∘ validate_tag <$> tags, mjoin (snd ∘ validate_tag <$> tags)).

Fixpoint log_all (rs : list log_record) : M unit :=
  match rs with
  | [] => mret ()
  | r :: rs' => log r;; log_all rs'
  end.

Definition _validate_ecs_tag_values (tags : list Tag) : M (list Tag) :=
  let '(result, warnings) := validate_ecs_tag_values tags in
  log_all warnings;; mret result.

(** ** Integers as text *)

Definition is_digit (c : N) : bool := ((48 <=? c) && (c <=? 57))%N.

(** Decimal digits of [n], most significant first, in front of [acc]. *)
Fixpoint digits_of (fuel : nat) (n : N) (acc : pystr) : pystr :=
  let acc' := (48 + n mod 10)%N :: acc in
  match fuel with
  | O => acc'
  | S fuel' => if (n / 10 =? 0)%N then acc' else digits_of fuel' (n / 10) acc'
  end.

(** [str(n)] for an [int]. *)
Definition py_str (n : Z) : pystr :=
  if (n <? 0)%Z then 45%N :: digits_of (Z.to_nat (- n)) (Z.to_N (- n)) []
  else digits_of (Z.to_nat n) (Z.to_N n) [].

(** [Py_ISSPACE], the white space [int] skips around a literal: tab to
    carriage return, and the space. *)
Definition is_c_space (c : N) : bool :=
  (((9 <=? c) && (c <=? 13)) || (c =? 32))%N.

(** The digit zero of every run of ten decimal digits in Unicode 14.0,
    the character database of CPython 3.11. *)
Definition decimal_zeros : list N :=
  [48; 1632; 1776; 1984; 2406; 2534; 2662; 2790; 2918; 3046; 3174; 3302;
   3430; 3558; 3664; 3792; 3872; 4160; 4240; 6112; 6160; 6470; 6608; 6784;
   6800; 6992; 7088; 7232; 7248; 42528; 43216; 43264; 43472; 43504; 43600;
   44016; 65296; 66720; 68912; 69734; 69872; 69942; 70096; 70384; 70736;
   70864; 71248; 71360; 71472; 71904; 72016; 72784; 73040; 73120; 92768;
   92864; 93008; 120782; 120792; 120802; 120812; 120822; 123200; 123632;
   125264; 130032]%N.

(** [Py_UNICODE_TODECIMAL]: the value of a decimal digit of any script. *)
Fixpoint to_decimal_in (zeros : list N) (c : N) : option N :=
  match zeros with
  | [] => None
  | z :: zeros' =>
      if ((z <=? c) && (c <=? z + 9))%N then Some (c - z)%N
      else to_decimal_in zeros' c
  end.

Definition to_decimal (c : N) : option N := to_decimal_in decimal_zeros c.

Definition chr_question : N := 63.

(** What [int] makes of one character before it reads the literal
    ([_PyUnicode_TransformDecimalAndSpaceToASCII]): a code point below 127
    stays, any other white space becomes a space, a decimal digit of
    another script becomes the ASCII digit of its value, and anything
    else becomes a question mark, which no literal holds. *)
Definition to_ascii (c : N) : N :=
  if (c <? 127)%N then c
  else if is_space c then chr_space
  else match to_decimal c with
       | Some d => (48 + d)%N
       | None => chr_question
       end.

Fixpoint skip_spaces (s : pystr) : pystr :=
  match s with
  | [] => []
  | c :: s' => if is_c_space c then skip_spaces s' else s
  end.

(** The digits of a decimal literal, read from the front of [s]: at
    least one digit, single underscores only between digits. [prev] tells
    whether the character before was a digit. Returns the value after
    [acc] and what follows the digits. *)
Fixpoint digits_value (acc : Z) (prev : bool) (s : pystr) : option (Z * pystr) :=
  match s with
  | [] => if prev then Some (acc, []) else None
  | c :: s' =>
      if is_digit c then digits_value (acc * 10 + Z.of_N (c - 48)) true s'
      else if (c =? 95)%N then
        if prev then digits_value acc false s' else None
      else if prev then Some (acc, s) else None
  end.

(** [int(s)] for a [str], base 10 ([PyLong_FromUnicodeObject]): white
    space is skipped, a sign may come first, then the digits, then white
    space up to the end of the string. The interpreter's limit on the
    number of digits ([sys.set_int_max_str_digits]) is taken as switched
    off. *)
Definition py_int (s : pystr) : result Z :=
  let invalid := inl (ValueError (py "invalid literal for int() with base 10")) in
  let str := skip_spaces (to_ascii <$> s) in
  let '(negative, ds) :=
    match str with
    | c :: r =>
        if (c =? 43)%N then (false, r)
        else if (c =? 45)%N then (true, r)
        else (false, str)
    | [] => (false, str)
    end in
  match digits_value 0 false ds with
  | Some (n, rest) =>
      match skip_spaces rest with
      | [] => inr (if negative then - n else n)%Z
      | _ :: _ => invalid
      end
  | None => invalid
  end.

(** ** Resources handed to the start and stop paths *)

(** The attributes of [ecs_resource] the two paths read. *)
Record Instance := mk_Instance {
  inst_id : pystr;
  inst_arn : pystr;
  inst_cluster_arn : pystr;
  inst_desired_count : Z;
  inst_tags : gmap pystr pystr;
  inst_is_cluster : bool
}.

(** [InstanceSchedule.STATE_RUNNING] and [InstanceSchedule.STATE_STOPPED]. *)
Inductive inst_state := STATE_RUNNING | STATE_STOPPED.

(** ** Tagging on stop and start *)

(** The body of the renaming loops:
    [if 'Key' in t and 'Value' in t: t['key'] = t.pop('Key');
    t['value'] = t.pop('Value')]. *)
Definition rename_Key_Value (t : Tag) : Tag :=
  match t !! py "Key", t !! py "Value" with
  | Some k, Some v =>
      <[py "value" := v]> (delete (py "Value")
        (<[py "key" := k]> (delete (py "Key") t)))
  | _, _ => t
  end.

(** [[t["key"] for t in ts]]: the first record without the field raises
    [KeyError]. *)
Fixpoint keys_of (ts : list Tag) : result (list pystr) :=
  match ts with
  | [] => inr []
  | t :: ts' =>
      match t !! py "key" with
      | None => inl (KeyError (py "key"))
      | Some k => ks ← keys_of ts'; inr (k :: ks)
      end
  end.

(** [[t["key"] for t in ts if t["key"] not in names]]. *)
Definition keys_not_in (names : list pystr) (ts : list Tag) : result (list pystr) :=
  ks ← keys_of ts; inr (filter (λ k, k ∉ names) ks).

Definition LAST_DESIRED_COUNT : pystr := py "ScheduledLastDesiredCount".

(** [{'key': 'ScheduledLastDesiredCount', 'value': str(n)}]. *)
Definition captured_tag (n : Z) : Tag :=
  <[py "key" := LAST_DESIRED_COUNT]> (<[py "value" := py_str n]> ∅).

Definition cluster_or_instance (r : Instance) : pystr :=
  if inst_is_cluster r then py "cluster" else py "instance".

Definition _tag_stopped_resource (c : client) (ecs_resource : Instance) : M unit :=
  cfg ← get_config;
  stop_tags ← _validate_ecs_tag_values (stopped_tags cfg);
  let started_tags0 := started_tags cfg in
  let stop_tags := rename_Key_Value <$> stop_tags in
  (* the renaming of [started_tags] writes into the configuration *)
  let started_tags1 :=
    if bool_decide (0 < length started_tags0)
    then rename_Key_Value <$> started_tags0 else started_tags0 in
  set_started_tags started_tags1;;
  let stop_tags := stop_tags ++ [captured_tag (inst_desired_count ecs_resource)] in
  stop_tags_key_names ← lift (keys_of stop_tags);
  start_tags_keys ← lift (keys_not_in stop_tags_key_names started_tags1);
  try_except
    ((if bool_decide (length start_tags_keys ≠ 0) then
        log (INF_REMOVE_KEYS (py "start") start_tags_keys (inst_arn ecs_resource));;
        call c (untag_resource (inst_arn ecs_resource) start_tags_keys)
      else pass);;
     (if bool_decide (0 < length stop_tags) then
        log (INF_ADD_TAGS (py "stop") stop_tags (inst_arn ecs_resource));;
        call c (tag_resource (inst_arn ecs_resource) stop_tags)
      else pass))
    (λ ex, log (WARN_TAGGING_STOPPED (inst_id ecs_resource) ex)).

Definition _tag_started_instances (c : client) (ecs_resource : Instance) : M unit :=
  cfg ← get_config;
  start_tags ← _validate_ecs_tag_values (started_tags cfg);
  let stopped_tags0 := stopped_tags cfg in
  let start_tags := rename_Key_Value <$> start_tags in
  (* the renaming of [stopped_tags] writes into the configuration *)
  let stopped_tags1 :=
    if bool_decide (0 < length stopped_tags0)
    then rename_Key_Value <$> stopped_tags0 else stopped_tags0 in
  set_stopped_tags stopped_tags1;;
  start_tags_key_names ← lift (keys_of start_tags);
  stop_tags_keys ← lift (keys_not_in start_tags_key_names stopped_tags1);
  try_except
    ((if bool_decide (length stop_tags_keys ≠ 0) then
        log (INF_REMOVE_KEYS (py "stop") stop_tags_keys (inst_arn ecs_resource));;
        call c (untag_resource (inst_arn ecs_resource) stop_tags_keys)
      else pass);;
     (if bool_decide (0 < length start_tags) then
        log (INF_ADD_TAGS (py "start") start_tags (inst_arn ecs_resource));;
        call c (tag_resource (inst_arn ecs_resource) start_tags)
      else pass))
    (λ ex, log (WARN_TAGGING_STARTED (inst_id ecs_resource) ex)).

(** ** Stopping and starting a batch *)

(** [try: for r in rs: y = body(r); yield y  except Exception as ex:
    handler(r, ex)] as a generator run to its end: the values yielded, in
    order, and the state it leaves. The handler sees the resource that
    was being processed. *)
Fixpoint for_yield {Y} (body : Instance → M Y) (handler : Instance → exn → M unit)
    (rs : list Instance) (st : state) : list Y * state :=
  match rs with
  | [] => ([], st)
  | r :: rs' =>
      match body r st with
      | (inl ex, st') => ([], snd (handler r ex st'))
      | (inr y, st') =>
          let '(ys, st'') := for_yield body handler rs' st' in
          (y :: ys, st'')
      end
  end.

Definition stop_one (c : client) (ecs_resource : Instance) : M (pystr * inst_state) :=
  call c (update_service (inst_cluster_arn ecs_resource) (inst_arn ecs_resource) 0);;
  _tag_stopped_resource c ecs_resource;;
  mret (inst_id ecs_resource, STATE_STOPPED).

Definition stop_instances (c : client) (stopped_instances : list Instance)
  : state → list (pystr * inst_state) * state :=
  for_yield (stop_one c)
    (λ r ex, log (ERR_STOPPING_INSTANCE (cluster_or_instance r) (inst_arn r) ex))
    stopped_instances.

Definition start_one (c : client) (ecs_resource : Instance) : M (pystr * inst_state) :=
  desiredCount ← lift (match inst_tags ecs_resource !! LAST_DESIRED_COUNT with
                       | None => inl (KeyError LAST_DESIRED_COUNT)
                       | Some s => py_int s
                       end);
  call c (update_service (inst_cluster_arn ecs_resource) (inst_arn ecs_resource) desiredCount);;
  _tag_started_instances c ecs_resource;;
  mret (inst_id ecs_resource, STATE_RUNNING).

Definition start_instances (c : client) (started_instances : list Instance)
  : state → list (pystr * inst_state) * state :=
  for_yield (start_one c)
    (λ r ex, log (ERR_STARTING_INSTANCE (cluster_or_instance r) (inst_arn r) ex))
    started_instances.

(** ** Discovery *)

(** One response of a paginated call: the records of the page and the
    continuation token, if the response carries one. *)
Record Page (A : Type) := mk_Page {
  items : list A;
  NextToken : option pystr
}.
Arguments mk_Page {A} _ _.
Arguments items {A} _.
Arguments NextToken {A} _.

(** A record of [describe_clusters]; [cd_tags] is [None] when the record
    has no ["tags"] field. *)
Record cluster_data := mk_cluster_data {
  clusterName : pystr;
  cd_tags : option (list (pystr * pystr))
}.

(** A record of [describe_services]. The service leaves ["launchType"]
    out of the record of a service that runs on a capacity provider
    strategy, and ["tags"] out of the record of a service without tags:
    [launchType] and [sd_tags] are [None] then. The other fields read by
    the code are part of every record. *)
Record service_data := mk_service_data {
  serviceArn : pystr;
  clusterArn : pystr;
  status : pystr;
  runningCount : Z;
  desiredCount : Z;
  launchType : option pystr;
  sd_tags : option (list (pystr * pystr))
}.

(** The read side of the ECS client; the second argument of each call is
    the [NextToken] passed, if any. *)
Record EcsReader := mk_EcsReader {
  list_clusters : option pystr → Page pystr;
  describe_clusters : list pystr → option pystr → Page cluster_data;
  list_services : pystr → option pystr → Page pystr;
  describe_services : pystr → list pystr → option pystr → Page service_data
}.

(** The dict each discovered service is turned into, one field per
    [schedulers.INST_*] key. *)
Record InstanceData := mk_InstanceData {
  INST_ID : pystr;
  INST_ARN : pystr;
  INST_CLUSTER_ARN : pystr;
  INST_ALLOW_RESIZE : bool;
  INST_HIBERNATE : bool;
  INST_STATE : pystr;
  INST_STATE_NAME : pystr;
  INST_IS_RUNNING : bool;
  INST_IS_TERMINATED : bool;
  INST_CURRENT_STATE : inst_state;
  INST_INSTANCE_TYPE : pystr;
  INST_SERVICE_STOP_TAG : bool;
  INST_MAINTENANCE_WINDOW : option pystr;
  INST_TAGS : gmap pystr pystr;
  INST_NAME : pystr;
  INST_SCHEDULE : option pystr;
  INST_RUNNING_COUNT : Z;
  INST_DESIRED_COUNT : Z
}.

(** [{tag["key"]: tag["value"] for tag in inst["tags"]} if "tags" in inst
    else {}]: a later entry with the same key wins. *)
Definition get_tags (tags : option (list (pystr * pystr))) : gmap pystr pystr :=
  match tags with
  | Some l => foldl (λ m kv, <[kv.1 := kv.2]> m) ∅ l
  | None => ∅
  end.

Section Discovery.

Variable api : EcsReader.
(** [self._tagname], the schedule tag key of the configuration. *)
Variable tagname : pystr.
(** Bound on the number of pages read by one loop; the loops of the
    source have none, and [None] stands for a loop still running when
    the bound is reached. A call that has come back has returned a value
    or has raised. *)
Variable fuel : nat.

(** [while not done: resp = fetch(args); acc.extend(resp[...]);
    if "NextToken" in resp: args["NextToken"] = resp["NextToken"]
    else: done = True]. *)
Fixpoint paginate {A} (n : nat) (fetch : option pystr → Page A)
    (token : option pystr) : option (list A) :=
  match n with
  | O => None
  | S n' =>
      let resp := fetch token in
      match NextToken resp with
      | Some t => rest ← paginate n' fetch (Some t); Some (items resp ++ rest)
      | None => Some (items resp)
      end
  end.

(** What follows a call that can still be running or have raised. *)
Definition and_then {A B} (m : option (result A)) (k : A → option (result B))
  : option (result B) :=
  match m with
  | None => None
  | Some (inl ex) => Some (inl ex)
  | Some (inr a) => k a
  end.

(** The same loop where the records of a page go through
    [for record in resp[...]: acc.append(body(record))] before the next
    page is requested: an exception of [body] ends the loop there. *)
Fixpoint paginate_for {A B} (n : nat) (fetch : option pystr → Page A)
    (body : A → result B) (token : option pystr) : option (result (list B)) :=
  match n with
  | O => None
  | S n' =>
      let resp := fetch token in
      match mapM body (items resp) with
      | inl ex => Some (inl ex)
      | inr out =>
          match NextToken resp with
          | Some t =>
              and_then (paginate_for n' fetch body (Some t))
                       (λ rest, Some (inr (out ++ rest)))
          | None => Some (inr out)
          end
      end
  end.

Definition _filter_resource_based_on_tags (tags : option (list (pystr * pystr))) : bool :=
  match get_tags tags !! tagname with
  | None => false
  | Some _ => true
  end.

(** [ecs_resource['launchType']] raises [KeyError] for a record without
    the field. *)
Definition _select_resource_data (ecs_resource : service_data)
    (tag_service_having_no_tag : bool) : result InstanceData :=
  let tags := get_tags (sd_tags ecs_resource) in
  let is_running := bool_decide (runningCount ecs_resource > 0)%Z in
  launch_type ← match launchType ecs_resource with
                 | Some l => inr l
                 | None => inl (KeyError (py "launchType"))
                 end;
  inr {| INST_ID := serviceArn ecs_resource;
         INST_ARN := serviceArn ecs_resource;
         INST_CLUSTER_ARN := clusterArn ecs_resource;
         INST_ALLOW_RESIZE := false;
         INST_HIBERNATE := false;
         INST_STATE := status ecs_resource;
         INST_STATE_NAME := py "running";
         INST_IS_RUNNING := is_running;
         INST_IS_TERMINATED := false;
         INST_CURRENT_STATE := if is_running then STATE_RUNNING else STATE_STOPPED;
         INST_INSTANCE_TYPE := launch_type;
         INST_SERVICE_STOP_TAG := tag_service_having_no_tag;
         INST_MAINTENANCE_WINDOW := None;
         INST_TAGS := tags;
         INST_NAME := default [] (tags !! py "Name");
         INST_SCHEDULE := tags !! tagname;
         INST_RUNNING_COUNT := runningCount ecs_resource;
         INST_DESIRED_COUNT := desiredCount ecs_resource |}.

(** The two lists of [mixed_clusters], as a pair
    [(clusters_with_schedule, clusters_without_schedule)], filled in the
    order of the records. *)
Definition classify_clusters (records : list cluster_data) : list pystr * list pystr :=
  (clusterName <$> filter (λ cd, _filter_resource_based_on_tags (cd_tags cd) = true) records,
   clusterName <$> filter (λ cd, _filter_resource_based_on_tags (cd_tags cd) ≠ true) records).

Definition _validate_cluster_tag_values (clusters : list pystr)
  : option (list pystr * list pystr) :=
  records ← paginate fuel (describe_clusters api clusters) None;
  Some (classify_clusters records).

Definition get_schedulable_ecs_clusters : option (list pystr * list pystr) :=
  clusters ← paginate fuel (list_clusters api) None;
  _validate_cluster_tag_values clusters.

(** The body of the [for service_data in ecs_response['services']] loop
    of [_validate_service_tag_values]: both branches append. *)
Definition classify_service (service_data : service_data) : result InstanceData :=
  if _filter_resource_based_on_tags (sd_tags service_data)
  then _select_resource_data service_data false
  else _select_resource_data service_data true.

Definition _validate_service_tag_values (services : list pystr) (cluster : pystr)
  : option (result (list InstanceData)) :=
  paginate_for fuel (describe_services api cluster services) classify_service None.

Definition get_schedulable_ecs_services (cluster : pystr)
  : option (result (list InstanceData)) :=
  services ← paginate fuel (list_services api cluster) None;
  _validate_service_tag_values services cluster.

Definition get_all_services (cluster : pystr) : option (result (list InstanceData)) :=
  services ← paginate fuel (list_services api cluster) None;
  paginate_for fuel (describe_services api cluster services)
    (λ service_data, _select_resource_data service_data false) None.

(** [for cluster in clusters_without_schedule:
      services = self.get_schedulable_ecs_services(cluster, ...)]. *)
Fixpoint services_of_unscheduled_clusters (clusters : list pystr)
    (services : list InstanceData) : option (result (list InstanceData)) :=
  match clusters with
  | [] => Some (inr services)
  | cluster :: clusters' =>
      and_then (get_schedulable_ecs_services cluster)
               (λ services', services_of_unscheduled_clusters clusters' services')
  end.

(** [for cluster in clusters_with_schedule:
      services.extend(self.get_all_services(cluster, ...))]. *)
Fixpoint services_of_scheduled_clusters (clusters : list pystr)
    (services : list InstanceData) : option (result (list InstanceData)) :=
  match clusters with
  | [] => Some (inr services)
  | cluster :: clusters' =>
      and_then (get_all_services cluster)
               (λ more, services_of_scheduled_clusters clusters' (services ++ more))
  end.

Definition get_schedulable_instances : option (result (list InstanceData)) :=
  mixed_clusters ← get_schedulable_ecs_clusters;
  and_then (services_of_unscheduled_clusters mixed_clusters.2 [])
           (λ services, services_of_scheduled_clusters mixed_clusters.1 services).

End Discovery.

(** ** The parts of the [configuration] package the builder relies on *)

(** Modelled from the spec: [WeekdaySetBuilder.build] is not part of the
    source file. Section 4.2 has it parse a weekday token into a single
    weekday value; the tokens are those of the example of section 8,
    Monday being day 0, and any other token is refused. *)
Definition weekdays_build_model (s : pystr) : result (gset nat) :=
  if decide (s = py "Mon") then inr {[0]}
  else if decide (s = py "Tue") then inr {[1]}
  else if decide (s = py "Wed") then inr {[2]}
  else if decide (s = py "Thu") then inr {[3]}
  else if decide (s = py "Fri") then inr {[4]}
  else if decide (s = py "Sat") then inr {[5]}
  else if decide (s = py "Sun") then inr {[6]}
  else inl (ValueError s).

Definition digit_value (c : N) : option nat :=
  if is_digit c then Some (N.to_nat (c - 48)) else None.

(** Modelled from the spec: [SchedulerConfigBuilder.get_time_from_string]
    is not part of the source file. Section 4.2 has it parse [HH:MM] into
    a time of day; a string that is not two digits, a colon and two
    digits within range gives no time. *)
Definition get_time_from_string_model (s : pystr) : option time :=
  match s with
  | [h1; h0; sep; m1; m0] =>
      if (sep =? chr_colon)%N then
        a ← digit_value h1; b ← digit_value h0;
        c ← digit_value m1; d ← digit_value m0;
        let h := 10 * a + b in
        let m := 10 * c + d in
        if bool_decide (h < 24 ∧ m < 60) then Some {| hour := h; minute := m |}
        else None
      else None
  | _ => None
  end.

(** Minutes since midnight. *)
Definition minute_of_day (t : time) : Z :=
  Z.of_nat (hour t) * 60 + Z.of_nat (minute t).

(** Modelled from the spec: what a period covers is decided by
    [RunningPeriod], which the source file only constructs. Sections 3
    and 4.2 write a period as the closed range [[begin, end]] of minutes
    on each of its weekdays. *)
Definition period_covers (p : RunningPeriod) (day : nat) (m : Z) : bool :=
  match begintime p, endtime p with
  | Some b, Some e =>
      bool_decide (day ∈ weekdays p) && (minute_of_day b <=? m)%Z && (m <=? minute_of_day e)%Z
  | _, _ => false
  end.

(** Minutes since Monday 00:00. *)
Definition minute_of_week (day : nat) (m : Z) : Z := Z.of_nat day * 1440 + m.

(** Modelled from the spec: the source interval of a window runs from the
    start time on the start weekday forward through the week to the stop
    time on the stop weekday, both ends included. *)
Definition in_window (d1 : nat) (t1 : time) (d2 : nat) (t2 : time)
    (day : nat) (m : Z) : bool :=
  let start := minute_of_week d1 (minute_of_day t1) in
  let stop := minute_of_week d2 (minute_of_day t2) in
  ((minute_of_week day m - start) mod 10080 <=? (stop - start) mod 10080)%Z.

(** A time of day within range. *)
Definition valid_time (t : time) : Prop := hour t < 24 ∧ minute t < 60.

(** A window string in the format [ddd:hh:mm-ddd:hh:mm]. *)
Definition window_string (start_day start_hhmm stop_day stop_hhmm : pystr) : pystr :=
  start_day ++ [chr_colon] ++ start_hhmm ++ [chr_dash]
  ++ stop_day ++ [chr_colon] ++ stop_hhmm.

(** ** Notions used to state the properties *)

(** A window string in the stated format: the only dash is the one
    between the halves, and no weekday token holds a colon. *)
Definition window_tokens (sd st ed et : pystr) : Prop :=
  (chr_dash ∉ sd) ∧ (chr_dash ∉ st) ∧ (chr_dash ∉ ed) ∧ (chr_dash ∉ et)
  ∧ (chr_colon ∉ sd) ∧ (chr_colon ∉ ed).

(** What validation does to one character. *)
Definition clean_char (c : N) : N :=
  if in_restricted_set c && negb (c =? chr_newline)%N then c else chr_space.

(** A record with every character of its [value] field cleaned. *)
Definition clean_value (t : Tag) : Tag :=
  match t !! py "value" with
  | Some v => <[py "value" := clean_char <$> v]> t
  | None => t
  end.

(** The warning due for a record: one if cleaning changes its value. *)
Definition value_warning (t : Tag) : list log_record :=
  match t !! py "value" with
  | Some v => if decide (clean_char <$> v = v) then []
              else [WARN_RDS_TAG_VALUE v t (clean_char <$> v)]
  | None => []
  end.

(** [t["key"]] of a record that has the field. *)
Definition key_of (t : Tag) : pystr := default [] (t !! py "key").

(** A record in one of the two shapes the paths accept: the fields
    [Key] and [Value], or the field [key]. *)
Definition tag_record (t : Tag) : Prop :=
  (is_Some (t !! py "Key") ∧ is_Some (t !! py "Value")) ∨ is_Some (t !! py "key").

(** A configuration whose two tag lists hold tag records. *)
Definition well_formed (cfg : Config) : Prop :=
  Forall tag_record (started_tags cfg) ∧ Forall tag_record (stopped_tags cfg).

(** The tag set the stop path applies. *)
Definition stop_tag_set (cfg : Config) (r : Instance) : list Tag :=
  (rename_Key_Value <$> (validate_ecs_tag_values (stopped_tags cfg)).1)
  ++ [captured_tag (inst_desired_count r)].

(** The tag set the start path applies. *)
Definition start_tag_set (cfg : Config) : list Tag :=
  rename_Key_Value <$> (validate_ecs_tag_values (started_tags cfg)).1.

(** The keys the stop path removes. *)
Definition stop_removal_keys (cfg : Config) (r : Instance) : list pystr :=
  filter (λ k, k ∉ key_of <$> stop_tag_set cfg r)
         (key_of <$> (rename_Key_Value <$> started_tags cfg)).

(** The keys the start path removes. *)
Definition start_removal_keys (cfg : Config) : list pystr :=
  filter (λ k, k ∉ key_of <$> start_tag_set cfg)
         (key_of <$> (rename_Key_Value <$> stopped_tags cfg)).

(** One guarded call of the [try] block: the events it adds after the
    trace [tr] and the exception it ends with, if any. *)
Definition attempt (c : client) (tr : list event) (b : bool)
    (l : log_record) (a : api_call) : list event * option exn :=
  if b then ([Log l; Call a], c (tr ++ [Log l]) a) else ([], None).

(** The events of the [try] block of a tagging path: the second call is
    reached only if the first did not raise, and an exception of either is
    followed by the warning. *)
Definition tagging_events (c : client) (tr : list event)
    (b1 : bool) (l1 : log_record) (a1 : api_call)
    (b2 : bool) (l2 : log_record) (a2 : api_call)
    (w : exn → log_record) : list event :=
  let '(e1, x1) := attempt c tr b1 l1 a1 in
  match x1 with
  | Some ex => e1 ++ [Log (w ex)]
  | None =>
      let '(e2, x2) := attempt c (tr ++ e1) b2 l2 a2 in
      e1 ++ e2 ++ match x2 with Some ex => [Log (w ex)] | None => [] end
  end.

(** The client calls of a trace, in order. *)
Definition calls_of (tr : list event) : list api_call :=
  tr ≫= λ e, match e with Call a => [a] | Log _ => [] end.

(** The number a run of decimal digits stands for, read after [acc]. *)
Definition digits_fold (acc : Z) (s : pystr) : Z :=
  foldl (λ a c, a * 10 + Z.of_N (c - 48))%Z acc s.

(** ** Worked inputs *)

(** A tag record in the shape [{'Key': k, 'Value': v}]. *)
Definition Key_Value (k v : string) : Tag :=
  <[py "Key" := py k]> (<[py "Value" := py v]> ∅).

(** A tag record in the shape [{'key': k, 'value': v}]. *)
Definition key_value (k v : string) : Tag :=
  <[py "key" := py k]> (<[py "value" := py v]> ∅).

Definition example_config : Config :=
  {| tag_name := py "Schedule";
     started_tags := [Key_Value "StartedBy" "scheduler"; Key_Value "State" "running"];
     stopped_tags := [Key_Value "State" "stopped"] |}.

Definition example_state : state :=
  {| config := example_config; trace := [] |}.

Definition example_service (name : string) (desired : Z) : Instance :=
  {| inst_id := py name;
     inst_arn := py "arn:aws:ecs:service/" ++ py name;
     inst_cluster_arn := py "arn:aws:ecs:cluster/main";
     inst_desired_count := desired;
     inst_tags := {[ py "Schedule" := py "office-hours";
                     LAST_DESIRED_COUNT := py_str desired ]};
     inst_is_cluster := false |}.

(** A client that answers every call. *)
Definition quiet_client : client := λ _ _, None.

(** A client that resizes but refuses every tagging call. *)
Definition no_tagging_client : client := λ _ a,
  match a with
  | update_service _ _ _ => None
  | _ => Some (ClientError (py "AccessDeniedException"))
  end.

(** A client that refuses to resize one service. *)
Definition client_refusing (service : pystr) : client := λ _ a,
  match a with
  | update_service _ s _ =>
      if decide (s = service) then Some (ClientError (py "ServiceNotFoundException"))
      else None
  | _ => None
  end.

Definition web : Instance := example_service "web" 4.
Definition api_service : Instance := example_service "api" 2.
Definition jobs : Instance := example_service "jobs" 1.

(** A response that fits in one page. *)
Definition single_page {A} (l : list A) : Page A :=
  {| items := l; NextToken := None |}.

Definition cluster_arn_of (cluster : string) : pystr :=
  py "arn:aws:ecs:cluster/" ++ py cluster.

Definition service_arn_of (cluster name : string) : pystr :=
  py "arn:aws:ecs:service/" ++ py cluster ++ py "/" ++ py name.

Definition service_record (cluster name : string) (tags : list (pystr * pystr))
  : service_data :=
  {| serviceArn := service_arn_of cluster name;
     clusterArn := cluster_arn_of cluster;
     status := py "ACTIVE";
     runningCount := 1;
     desiredCount := 1;
     launchType := Some (py "FARGATE");
     sd_tags := Some tags |}.

(** An account with the clusters [alpha] and [beta], in that order.
    [alpha] runs [web], which carries the schedule tag, and [batch], which
    does not; [beta] runs [cache], which does not. [alpha_tags] and
    [beta_tags] are the tags of the clusters themselves. *)
Definition two_clusters (alpha_tags beta_tags : list (pystr * pystr)) : EcsReader :=
  {| list_clusters := λ _,
       single_page [cluster_arn_of "alpha"; cluster_arn_of "beta"];
     describe_clusters := λ _ _,
       single_page [ {| clusterName := py "alpha"; cd_tags := Some alpha_tags |};
                     {| clusterName := py "beta"; cd_tags := Some beta_tags |} ];
     list_services := λ cluster _,
       if decide (cluster = py "alpha")
       then single_page [service_arn_of "alpha" "web"; service_arn_of "alpha" "batch"]
       else if decide (cluster = py "beta")
       then single_page [service_arn_of "beta" "cache"]
       else single_page [];
     describe_services := λ cluster _ _,
       if decide (cluster = py "alpha")
       then single_page [ service_record "alpha" "web" [(py "Schedule", py "office-hours")];
                          service_record "alpha" "batch" [] ]
       else if decide (cluster = py "beta")
       then single_page [ service_record "beta" "cache" [] ]
       else single_page [] |}.

(** What the discovery reports of a service: its identifier and its
    force-stop marker. *)
Definition discovered (outcome : option (result (list InstanceData)))
  : option (result (list (pystr * bool))) :=
  match outcome with
  | Some (inr l) => Some (inr ((λ d, (INST_ID d, INST_SERVICE_STOP_TAG d)) <$> l))
  | Some (inl ex) => Some (inl ex)
  | None => None
  end.


(** ** Notions used to state further properties *)

(** A provider that answers the request made with [token] by the pages
    [pages], one after the other, each carrying the token that fetches the
    next, and then by a page [final] without token. *)
Fixpoint serves {A} (fetch : option pystr → Page A) (token : option pystr)
    (pages : list (list A * pystr)) (final : list A) : Prop :=
  match pages with
  | [] => fetch token = {| items := final; NextToken := None |}
  | (its, next) :: pages' =>
      fetch token = {| items := its; NextToken := Some next |}
      ∧ serves fetch (Some next) pages' final
  end.

(** ** Further worked inputs *)

(** An account with the one cluster [main], which carries the tags
    [cluster_tags] and runs the services described by [records]; every
    call answers in one page. *)
Definition one_cluster (cluster_tags : list (pystr * pystr))
    (records : list service_data) : EcsReader :=
  {| list_clusters := λ _, single_page [cluster_arn_of "main"];
     describe_clusters := λ _ _,
       single_page [ {| clusterName := py "main"; cd_tags := Some cluster_tags |} ];
     list_services := λ _ _, single_page (serviceArn <$> records);
     describe_services := λ _ _ _, single_page records |}.

(** The record of a service that runs on a capacity provider strategy:
    [describe_services] gives it no [launchType]. *)
Definition spot_record : service_data :=
  {| serviceArn := service_arn_of "main" "spot";
     clusterArn := cluster_arn_of "main";
     status := py "ACTIVE";
     runningCount := 2;
     desiredCount := 2;
     launchType := None;
     sd_tags := Some [(py "Schedule", py "office-hours")] |}.

(** ** The tag cache *)

(** One entry of [ResourceTagMappingList]; [rtm_tags] is [None] when the
    entry has no ["tags"] field. *)
Record resource_tag_mapping := mk_resource_tag_mapping {
  ResourceARN : pystr;
  rtm_tags : option (list (pystr * pystr))
}.

(** A response of [get_resources]; a field is [None] when the response
    does not have it. *)
Record resources_page := mk_resources_page {
  ResourceTagMappingList : option (list resource_tag_mapping);
  PaginationToken : option pystr
}.

(** What the property reads and writes: [self._instance_tags], [None]
    until the first read, and the requests made to the tagging client, each
    with the [PaginationToken] it passed, oldest first. *)
Record tag_cache := mk_tag_cache {
  _instance_tags : option (gmap pystr (gmap pystr pystr));
  requests : list (option pystr)
}.

(** [{tag["key"]: tag["value"] for tag in resource.get("tags", {})
    if tag["key"] in ["Name", self._tagname]}]. *)
Definition selected_tags (tagname : pystr) (tags : option (list (pystr * pystr)))
  : gmap pystr pystr :=
  foldl (λ m kv, <[kv.1 := kv.2]> m) ∅
        (filter (λ kv, kv.1 ∈ [py "Name"; tagname]) (default [] tags)).

(** The [for resource in resp.get("ResourceTagMappingList", [])] loop. *)
Definition store_resources (tagname : pystr) (resources : list resource_tag_mapping)
    (tags : gmap pystr (gmap pystr pystr)) : gmap pystr (gmap pystr pystr) :=
  foldl (λ m res, <[ResourceARN res := selected_tags tagname (rtm_tags res)]> m)
        tags resources.

(** The [while True] loop of [rds_resource_tags]: the exception that ended
    it, if any, the dict as filled so far and the requests made. [None]
    stands for a loop still running after [n] pages. *)
Fixpoint fetch_instance_tags (n : nat) (get_resources : option pystr → result resources_page)
    (tagname : pystr) (token : option pystr)
    (tags : gmap pystr (gmap pystr pystr)) (reqs : list (option pystr))
  : option (option exn * gmap pystr (gmap pystr pystr) * list (option pystr)) :=
  match n with
  | O => None
  | S n' =>
      match get_resources token with
      | inl ex => Some (Some ex, tags, reqs ++ [token])
      | inr resp =>
          let tags' :=
            store_resources tagname (default [] (ResourceTagMappingList resp)) tags in
          if decide (default [] (PaginationToken resp) ≠ [])
          then fetch_instance_tags n' get_resources tagname (PaginationToken resp)
                 tags' (reqs ++ [token])
          else Some (None, tags', reqs ++ [token])
      end
  end.

(** The property [rds_resource_tags]: its result and the object after the
    read. The dict is bound to [self._instance_tags] before the loop fills
    it, so it stays there when a request raises. *)
Definition rds_resource_tags (n : nat) (get_resources : option pystr → result resources_page)
    (tagname : pystr) (self : tag_cache)
  : option (result (gmap pystr (gmap pystr pystr)) * tag_cache) :=
  match _instance_tags self with
  | Some tags => Some (inr tags, self)
  | None =>
      match fetch_instance_tags n get_resources tagname None ∅ (requests self) with
      | None => None
      | Some (ex, tags, reqs) =>
          Some (match ex with Some e => inl e | None => inr tags end,
                {| _instance_tags := Some tags; requests := reqs |})
      end
  end.

(** ** Stopping a database instance *)

Module Rds.

(** The attributes of [inst] that [_stop_instance] reads. *)
Record Inst := mk_Inst {
  id : pystr;
  instance_str : pystr
}.

Inductive api_call :=
| describe_db_snapshots (DBSnapshotIdentifier : pystr)
| delete_db_snapshot (DBSnapshotIdentifier : pystr)
| stop_db_instance (DBInstanceIdentifier : pystr) (DBSnapshotIdentifier : option pystr).

Inductive log_record :=
| INF_DELETE_SNAPSHOT (name : pystr)
| ERR_DELETING_SNAPSHOT (name : pystr)
| INF_STOPPED_RESOURCE (kind id : pystr)
| ERR_STOPPING_INSTANCE (kind instance_str : pystr) (ex : exn).

Inductive event :=
| Call (a : api_call)
| Log (r : log_record).

(** What a call does: it raises, or it returns a response, of which only
    the field [DBSnapshots] of [describe_db_snapshots] is read; [None] is a
    response without the field. *)
Inductive answer :=
| Raises (ex : exn)
| Returns (DBSnapshots : option (list pystr)).

Definition client := list event → api_call → answer.

(** [type(ex).__name__]; an exception of the client is named after its
    error code. *)
Definition type_name (ex : exn) : pystr :=
  match ex with
  | ValueError _ => py "ValueError"
  | KeyError _ => py "KeyError"
  | ClientError code => code
  end.

(** A computation on the trace that returns or raises. *)
Definition R (A : Type) : Type := list event → result A * list event.

#[global] Instance R_ret : MRet R := λ A a tr, (inr a, tr).
#[global] Instance R_bind : MBind R := λ A B k m tr,
  match m tr with
  | (inl e, tr') => (inl e, tr')
  | (inr a, tr') => k a tr'
  end.

Definition raise {A} (e : exn) : R A := λ tr, (inl e, tr).

Definition log (r : log_record) : R unit := λ tr, (inr (), tr ++ [Log r]).

(** A call is recorded whether or not it raises; it returns the field
    [DBSnapshots] of the response. *)
Definition call (c : client) (a : api_call) : R (option (list pystr)) := λ tr,
  match c tr a with
  | Returns snapshots => (inr snapshots, tr ++ [Call a])
  | Raises ex => (inl ex, tr ++ [Call a])
  end.

Definition try_except {A} (body : R A) (handler : exn → R A) : R A := λ tr,
  match body tr with
  | (inl e, tr') => handler e tr'
  | (inr a, tr') => (inr a, tr')
  end.

Definition pass : R unit := mret ().

(** The nested function [does_snapshot_exist]. *)
Definition does_snapshot_exist (c : client) (name : pystr) : R bool :=
  try_except
    (snapshot ← call c (describe_db_snapshots name);
     mret (bool_decide (is_Some snapshot)))
    (λ ex, if decide (type_name ex = py "DBSnapshotNotFoundFault")
           then mret false else raise ex).

(** ["{}-stopped-{}".format(stack_name, id).replace(" ", "")]. *)
Definition snapshot_name (stack_name id : pystr) : pystr :=
  filter (λ ch, ch ≠ chr_space) (stack_name ++ py "-stopped-" ++ id).

(** [_stop_instance], with [self._config.create_rds_snapshot] and
    [self._stack_name] as arguments. *)
Definition _stop_instance (c : client) (create_rds_snapshot : bool) (stack_name : pystr)
    (inst : Inst) : R unit :=
  let name := snapshot_name stack_name (id inst) in
  let args := stop_db_instance (id inst)
                (if create_rds_snapshot then Some name else None) in
  (if create_rds_snapshot then
     try_except
       (found ← does_snapshot_exist c name;
        if found : bool then
          call c (delete_db_snapshot name);;
          log (INF_DELETE_SNAPSHOT name)
        else pass)
       (λ ex, log (ERR_DELETING_SNAPSHOT name))
   else pass);;
  try_except
    (call c args;;
     log (INF_STOPPED_RESOURCE (py "instance") (id inst)))
    (λ ex, log (ERR_STOPPING_INSTANCE (py "instance") (instance_str inst) ex)).

(** The client calls of a trace, in order. *)
Definition calls_of (tr : list event) : list api_call :=
  tr ≫= λ e, match e with Call a => [a] | Log _ => [] end.

End Rds.

(** * Properties *)

(** ** The maintenance-window builder *)

Lemma split_no_sep sep (s : pystr) : sep ∉ s → split sep s = [s].
Proof.
  induction s as [|c s IH]; intros Hs; [done|].
  apply not_elem_of_cons in Hs as [Hc Hs]. simpl.
  destruct (N.eqb_spec c sep) as [->|_]; [done|].
  by rewrite IH.
Qed.

Lemma split_app sep (a b : pystr) :
  sep ∉ a → split sep (a ++ sep :: b) = a :: split sep b.
Proof.
  induction a as [|c a IH]; intros Ha; simpl.
  - by rewrite N.eqb_refl.
  - apply not_elem_of_cons in Ha as [Hc Ha].
    destruct (N.eqb_spec c sep) as [->|_]; [done|].
    by rewrite IH.
Qed.

Lemma split1_app sep (a b : pystr) :
  sep ∉ a → split1 sep (a ++ sep :: b) = [a; b].
Proof.
  induction a as [|c a IH]; intros Ha; simpl.
  - by rewrite N.eqb_refl.
  - apply not_elem_of_cons in Ha as [Hc Ha].
    destruct (N.eqb_spec c sep) as [->|_]; [done|].
    by rewrite IH.
Qed.

Lemma window_string_split sd st ed et :
  window_tokens sd st ed et →
  split chr_dash (window_string sd st ed et)
    = [sd ++ [chr_colon] ++ st; ed ++ [chr_colon] ++ et]
  ∧ split1 chr_colon (sd ++ [chr_colon] ++ st) = [sd; st]
  ∧ split1 chr_colon (ed ++ [chr_colon] ++ et) = [ed; et].
Proof.
  intros (Hsd & Hst & Hed & Het & Hcs & Hce).
  split_and!.
  - unfold window_string.
    replace (sd ++ [chr_colon] ++ st ++ [chr_dash] ++ ed ++ [chr_colon] ++ et)
      with ((sd ++ [chr_colon] ++ st) ++ chr_dash :: (ed ++ [chr_colon] ++ et))
      by (by rewrite <- !app_assoc).
    rewrite split_app.
    + rewrite split_no_sep; [done|].
      rewrite !not_elem_of_app, not_elem_of_cons. split_and!; [done|done|set_solver|done].
    + rewrite !not_elem_of_app, not_elem_of_cons. split_and!; [done|done|set_solver|done].
  - by apply split1_app.
  - by apply split1_app.
Qed.

Lemma period_covers_singleton n d b e day m :
  period_covers {| rp_name := n; begintime := Some b; endtime := Some e; weekdays := {[d]} |} day m = true
  ↔ day = d ∧ (minute_of_day b ≤ m ≤ minute_of_day e)%Z.
Proof.
  unfold period_covers. simpl.
  rewrite !andb_true_iff, bool_decide_eq_true, elem_of_singleton, !Z.leb_le. tauto.
Qed.

Lemma adjacent_periods_cover d1 t1 t2 day m n1 n2 :
  d1 < 7 → valid_time t1 → valid_time t2 → day < 7 → (0 ≤ m < 1440)%Z →
  let d2 := (d1 + 1) mod 7 in
  let p1 := {| rp_name := n1; begintime := Some t1;
               endtime := Some (mk_time 23 59); weekdays := {[d1]} |} in
  let p2 := {| rp_name := n2; begintime := Some (mk_time 0 0);
               endtime := Some t2; weekdays := {[d2]} |} in
  (in_window d1 t1 d2 t2 day m = true
     ↔ period_covers p1 day m = true ∨ period_covers p2 day m = true)
  ∧ ¬ (period_covers p1 day m = true ∧ period_covers p2 day m = true).
Proof.
  intros Hd1 [Hh1 Hm1] [Hh2 Hm2] Hday Hm d2 p1 p2.
  assert (Hd2 : d2 = if decide (d1 = 6) then 0 else d1 + 1).
  { subst d2. case_decide; [by subst|]. apply Nat.mod_small. lia. }
  subst p1 p2. rewrite !period_covers_singleton.
  unfold in_window, minute_of_week, minute_of_day. rewrite Z.leb_le.
  rewrite Hd2. clear d2 Hd2.
  destruct t1 as [h1 m1], t2 as [h2 m2]; cbn [hour minute] in *.
  case_decide; Z.div_mod_to_equations; lia.
Qed.

Section MaintenanceWindowFacts.

Variable weekdays_build : pystr → result (gset nat).
Variable get_time_from_string : pystr → option time.

Abbreviation build := (build_schedule_from_maintenance_window weekdays_build get_time_from_string).

Lemma build_window sd st ed et :
  window_tokens sd st ed et →
  build (window_string sd st ed et) =
    (start_weekday ← weekdays_build sd;
     periods ←
       (if decide (sd = ed) then
          inr [ {| period := {| rp_name := MAINTENANCE_PERIOD_NAME;
                                begintime := get_time_from_string st;
                                endtime := get_time_from_string et;
                                weekdays := start_weekday |};
                   instancetype := None |} ]
        else
          stop_weekday ← weekdays_build ed;
          inr [ {| period := {| rp_name := MAINTENANCE_PERIOD_NAME ++ py "-" ++ sd;
                                begintime := get_time_from_string st;
                                endtime := get_time_from_string (py "23:59");
                                weekdays := start_weekday |};
                   instancetype := Some None |};
                {| period := {| rp_name := MAINTENANCE_PERIOD_NAME ++ py "-" ++ ed;
                                begintime := get_time_from_string (py "00:00");
                                endtime := get_time_from_string et;
                                weekdays := stop_weekday |};
                   instancetype := Some None |} ]);
     inr {| sched_name := MAINTENANCE_SCHEDULE_NAME;
            periods := periods;
            timezone := py "UTC";
            enforced := true |}).
Proof.
  intros Hw. destruct (window_string_split _ _ _ _ Hw) as (H1 & H2 & H3).
  unfold build_schedule_from_maintenance_window.
  rewrite H1. simpl in *. rewrite H2. simpl. rewrite H3. reflexivity.
Qed.

Lemma build_fixed_fields period_str s :
  build period_str = inr s →
  sched_name s = MAINTENANCE_SCHEDULE_NAME ∧ timezone s = py "UTC" ∧ enforced s = true.
Proof.
  unfold build_schedule_from_maintenance_window.
  destruct (unpack2 (split chr_dash period_str)) as [?|[a b]]; [done|]; simpl.
  destruct (unpack2 (split1 chr_colon a)) as [?|[sd st]]; [done|]; simpl.
  destruct (unpack2 (split1 chr_colon b)) as [?|[ed et]]; [done|]; simpl.
  destruct (weekdays_build sd) as [?|w1]; [done|]; simpl.
  destruct (decide (sd = ed)); simpl.
  - intros [= <-]. done.
  - destruct (weekdays_build ed) as [?|w2]; [done|]; simpl.
    intros [= <-]. done.
Qed.

(** C3. A window string whose two weekday tokens are equal gives a
    schedule with exactly one period, from the parsed start time to the
    parsed stop time on the weekdays built from that token; the times are
    taken as parsed, in whatever order they come. Every schedule the
    builder returns carries the fixed maintenance-schedule name, the
    timezone UTC and [enforced = true]. *)
Theorem same_day_window_one_period sd st et wd :
  window_tokens sd st sd et →
  weekdays_build sd = inr wd →
  build (window_string sd st sd et) =
    inr {| sched_name := MAINTENANCE_SCHEDULE_NAME;
           periods := [ {| period := {| rp_name := MAINTENANCE_PERIOD_NAME;
                                        begintime := get_time_from_string st;
                                        endtime := get_time_from_string et;
                                        weekdays := wd |};
                           instancetype := None |} ];
           timezone := py "UTC";
           enforced := true |}
  ∧ ∀ period_str s, build period_str = inr s →
      sched_name s = MAINTENANCE_SCHEDULE_NAME ∧ timezone s = py "UTC" ∧ enforced s = true.
Proof.
  intros Hw Hwd. split; [|apply build_fixed_fields].
  rewrite build_window by done. rewrite Hwd. simpl.
  by rewrite decide_True.
Qed.

(** C2, as amended. A window string whose two weekday tokens differ
    gives a schedule with exactly two periods: from the parsed start
    time to the time read from "23:59" on the start weekdays, and from
    the time read from "00:00" to the parsed stop time on the stop
    weekdays. When the stop weekday is the day after the start weekday,
    a minute of the week lies in the source interval exactly when one of
    the two periods covers it, and no minute is covered by both. *)
Theorem two_day_window_two_periods sd st ed et w1 w2 :
  window_tokens sd st ed et →
  sd ≠ ed →
  weekdays_build sd = inr w1 →
  weekdays_build ed = inr w2 →
  let p1 := {| rp_name := MAINTENANCE_PERIOD_NAME ++ py "-" ++ sd;
               begintime := get_time_from_string st;
               endtime := get_time_from_string (py "23:59");
               weekdays := w1 |} in
  let p2 := {| rp_name := MAINTENANCE_PERIOD_NAME ++ py "-" ++ ed;
               begintime := get_time_from_string (py "00:00");
               endtime := get_time_from_string et;
               weekdays := w2 |} in
  build (window_string sd st ed et) =
    inr {| sched_name := MAINTENANCE_SCHEDULE_NAME;
           periods := [ {| period := p1; instancetype := Some None |};
                        {| period := p2; instancetype := Some None |} ];
           timezone := py "UTC";
           enforced := true |}
  ∧ ∀ d1 t1 t2,
      d1 < 7 → w1 = {[d1]} → w2 = {[(d1 + 1) mod 7]} →
      get_time_from_string st = Some t1 → valid_time t1 →
      get_time_from_string et = Some t2 → valid_time t2 →
      get_time_from_string (py "23:59") = Some (mk_time 23 59) →
      get_time_from_string (py "00:00") = Some (mk_time 0 0) →
      ∀ day m, day < 7 → (0 ≤ m < 1440)%Z →
        (in_window d1 t1 ((d1 + 1) mod 7) t2 day m = true
           ↔ period_covers p1 day m = true ∨ period_covers p2 day m = true)
        ∧ ¬ (period_covers p1 day m = true ∧ period_covers p2 day m = true).
Proof.
  intros Hw Hne Hw1 Hw2 p1 p2. split.
  - rewrite build_window by done. rewrite Hw1. simpl.
    rewrite decide_False by done. by rewrite Hw2.
  - intros d1 t1 t2 Hd1 -> -> Ht1 Hv1 Ht2 Hv2 H2359 H0000 day m Hday Hm.
    subst p1 p2. rewrite Ht1, Ht2, H2359, H0000.
    by apply adjacent_periods_cover.
Qed.

End MaintenanceWindowFacts.

Ltac by_compute :=
  match goal with
  | |- ?P => apply (@bool_decide_unpack P _); vm_compute; exact I
  end.

Lemma same_day_window_one_period_witness :
  build_schedule_from_maintenance_window weekdays_build_model get_time_from_string_model
    (py "Mon:05:00-Mon:03:00") =
  inr {| sched_name := MAINTENANCE_SCHEDULE_NAME;
         periods := [ {| period := {| rp_name := MAINTENANCE_PERIOD_NAME;
                                      begintime := Some (mk_time 5 0);
                                      endtime := Some (mk_time 3 0);
                                      weekdays := {[0]} |};
                         instancetype := None |} ];
         timezone := py "UTC";
         enforced := true |}.
Proof.
  refine (proj1 (same_day_window_one_period weekdays_build_model
                   get_time_from_string_model
                   (py "Mon") (py "05:00") (py "03:00") {[0]} _ _)).
  - unfold window_tokens. by_compute.
  - reflexivity.
Defined.

Lemma two_day_window_two_periods_witness :
  (∃ p1 p2,
     build_schedule_from_maintenance_window weekdays_build_model get_time_from_string_model
       (py "Mon:23:30-Tue:01:00") =
     inr {| sched_name := MAINTENANCE_SCHEDULE_NAME;
            periods := [ {| period := p1; instancetype := Some None |};
                         {| period := p2; instancetype := Some None |} ];
            timezone := py "UTC";
            enforced := true |}
     ∧ (begintime p1, endtime p1, weekdays p1)
         = (Some (mk_time 23 30), Some (mk_time 23 59), {[0]})
     ∧ (begintime p2, endtime p2, weekdays p2)
         = (Some (mk_time 0 0), Some (mk_time 1 0), {[1]})
     ∧ ∀ day m, day < 7 → (0 ≤ m < 1440)%Z →
         (in_window 0 (mk_time 23 30) 1 (mk_time 1 0) day m = true
            ↔ period_covers p1 day m = true ∨ period_covers p2 day m = true)
         ∧ ¬ (period_covers p1 day m = true ∧ period_covers p2 day m = true)).
Proof.
  assert (Hw : window_tokens (py "Mon") (py "23:30") (py "Tue") (py "01:00"))
    by (unfold window_tokens; by_compute).
  assert (Hne : py "Mon" ≠ py "Tue") by by_compute.
  destruct (two_day_window_two_periods weekdays_build_model
              get_time_from_string_model
              (py "Mon") (py "23:30") (py "Tue") (py "01:00") {[0]} {[1]}
              Hw Hne eq_refl eq_refl) as [Hb Hc].
  eexists _, _. split; [exact Hb|]. split; [reflexivity|]. split; [reflexivity|].
  apply (Hc 0 (mk_time 23 30) (mk_time 1 0)); try reflexivity;
    unfold valid_time; simpl; lia.
Defined.

(** C2, as stated, does not hold when the two weekdays are further apart:
    for "Mon:23:30-Wed:01:00" the builder returns a period on Monday and a
    period on Wednesday; Tuesday noon lies in the source interval and in
    neither period. *)
Lemma two_day_window_gap_counterexample :
  ∃ s,
    build_schedule_from_maintenance_window weekdays_build_model get_time_from_string_model
      (py "Mon:23:30-Wed:01:00") = inr s
    ∧ ((λ e, (begintime (period e), endtime (period e), elements (weekdays (period e))))
         <$> periods s)
      = [ (Some (mk_time 23 30), Some (mk_time 23 59), [0]);
          (Some (mk_time 0 0), Some (mk_time 1 0), [2]) ]
    ∧ in_window 0 (mk_time 23 30) 2 (mk_time 1 0) 1 720 = true
    ∧ existsb (λ e, period_covers (period e) 1 720) (periods s) = false.
Proof.
  eexists. split; [vm_compute; reflexivity|].
  split; [vm_compute; reflexivity|]. split; vm_compute; reflexivity.
Qed.

(** ** Validation of tag values *)


Lemma clean_char_spec c :
  (if (if in_restricted_set c then c else chr_space) =? chr_newline then chr_space
   else if in_restricted_set c then c else chr_space)%N = clean_char c.
Proof.
  unfold clean_char. destruct (in_restricted_set c); simpl.
  - by destruct (N.eqb_spec c chr_newline).
  - done.
Qed.

Lemma replace_re_sub v : replace_newline (re_sub_restricted v) = clean_char <$> v.
Proof.
  unfold replace_newline, re_sub_restricted. rewrite <- list_fmap_compose.
  apply list_fmap_ext. intros _ c _. simpl. apply clean_char_spec.
Qed.

Lemma clean_char_allowed c :
  in_restricted_set (clean_char c) = true ∧ clean_char c ≠ chr_newline.
Proof.
  unfold clean_char. destruct (in_restricted_set c) eqn:Hc; simpl.
  - destruct (N.eqb_spec c chr_newline); simpl; done.
  - done.
Qed.

Lemma clean_char_id c :
  in_restricted_set c = true → c ≠ chr_newline → clean_char c = c.
Proof.
  intros Hc Hn. unfold clean_char. rewrite Hc. simpl.
  by destruct (N.eqb_spec c chr_newline).
Qed.

Lemma clean_char_idemp c : clean_char (clean_char c) = clean_char c.
Proof. destruct (clean_char_allowed c). by apply clean_char_id. Qed.

Lemma validate_tag_fst t : (validate_tag t).1 = clean_value t.
Proof.
  unfold validate_tag, clean_value.
  destruct (t !! py "value") as [v|] eqn:Hv; simpl.
  - rewrite replace_re_sub. case_decide; simpl; [done|].
    symmetry. apply insert_id. rewrite Hv. by f_equal.
  - done.
Qed.

Lemma validate_tag_snd t : (validate_tag t).2 = value_warning t.
Proof.
  unfold validate_tag, value_warning.
  destruct (t !! py "value") as [v|] eqn:Hv; simpl.
  - rewrite replace_re_sub. by repeat case_decide.
  - done.
Qed.

Lemma log_all_run rs st :
  log_all rs st = (inr (), {| config := config st; trace := trace st ++ (Log <$> rs) |}).
Proof.
  revert st. induction rs as [|r rs IH]; intros [cfg tr]; simpl.
  - by rewrite app_nil_r.
  - unfold mbind, M_bind, log, emit. simpl. rewrite IH. simpl.
    by rewrite <- app_assoc.
Qed.

Lemma validate_ecs_tag_values_eq tags :
  validate_ecs_tag_values tags = (clean_value <$> tags, tags ≫= value_warning).
Proof.
  unfold validate_ecs_tag_values. f_equal.
  - apply list_fmap_ext. intros _ t _. apply validate_tag_fst.
  - induction tags as [|t tags IH]; [done|].
    simpl. rewrite validate_tag_snd. f_equal. exact IH.
Qed.

Lemma validate_run tags st :
  _validate_ecs_tag_values tags st =
    (inr (clean_value <$> tags),
     {| config := config st; trace := trace st ++ (Log <$> (tags ≫= value_warning)) |}).
Proof.
  unfold _validate_ecs_tag_values. rewrite validate_ecs_tag_values_eq.
  unfold mbind, M_bind. by rewrite log_all_run.
Qed.

Lemma clean_value_lookup_ne t k : k ≠ py "value" → clean_value t !! k = t !! k.
Proof.
  intros Hk. unfold clean_value. destruct (t !! py "value"); [|done].
  by rewrite lookup_insert_ne.
Qed.

Lemma clean_value_lookup t : clean_value t !! py "value" = fmap clean_char <$> (t !! py "value").
Proof.
  unfold clean_value. destruct (t !! py "value") as [v|] eqn:Hv; simpl; [|done].
  by rewrite lookup_insert_eq.
Qed.

Lemma clean_value_idemp t : clean_value (clean_value t) = clean_value t.
Proof.
  unfold clean_value at 1. rewrite clean_value_lookup.
  destruct (t !! py "value") as [v|] eqn:Hv; simpl; [|done].
  apply insert_id. rewrite clean_value_lookup, Hv. simpl. f_equal.
  rewrite <- list_fmap_compose. apply list_fmap_ext. intros _ c _. simpl.
  by rewrite clean_char_idemp.
Qed.

Lemma value_warning_clean t : value_warning (clean_value t) = [].
Proof.
  unfold value_warning. rewrite clean_value_lookup.
  destruct (t !! py "value") as [v|]; simpl; [|done].
  rewrite decide_True; [done|].
  rewrite <- list_fmap_compose. apply list_fmap_ext. intros _ c _. simpl.
  by rewrite clean_char_idemp.
Qed.

Lemma clean_chars_id (v : pystr) :
  (∀ c, c ∈ v → in_restricted_set c = true ∧ c ≠ chr_newline) →
  clean_char <$> v = v.
Proof.
  intros Hv. rewrite <- (list_fmap_id v) at 2. apply list_fmap_ext.
  intros i c Hc. apply list_elem_of_lookup_2 in Hc.
  destruct (Hv c Hc). by apply clean_char_id.
Qed.

Lemma state_eta st : {| config := config st; trace := trace st ++ [] |} = st.
Proof. destruct st. simpl. by rewrite app_nil_r. Qed.

(** C9. Validation replaces every character of a [value] field that is
    outside the restricted set, and every newline, by one space and keeps
    every other character; a warning is logged for exactly the records
    whose value changed, with the old value, the record and the new value;
    the restricted set is a-z, A-Z, 0-9, white space and the characters
    [_ . : + / = \ @ -]; after validation every value holds only
    characters of that set and no newline. *)
Theorem validate_restricted_character_set tags st :
  _validate_ecs_tag_values tags st =
    (inr (clean_value <$> tags),
     {| config := config st; trace := trace st ++ (Log <$> (tags ≫= value_warning)) |})
  ∧ (∀ c, in_restricted_set c = true ↔
          ((97 ≤ c ≤ 122) ∨ (65 ≤ c ≤ 90) ∨ (48 ≤ c ≤ 57))%N
          ∨ is_space c = true ∨ c ∈ py "_.:+/=\@-")
  ∧ (∀ r v c, r ∈ clean_value <$> tags → r !! py "value" = Some v → c ∈ v →
       in_restricted_set c = true ∧ c ≠ chr_newline).
Proof.
  split; [apply validate_run|]. split.
  - intros c. unfold in_restricted_set.
    rewrite !orb_true_iff, !andb_true_iff, !N.leb_le, !N.eqb_eq.
    change (py "_.:+/=\@-") with [95; 46; 58; 43; 47; 61; 92; 64; 45]%N.
    rewrite !elem_of_cons, elem_of_nil. tauto.
  - intros r v c (t & -> & _)%list_elem_of_fmap Hv Hc.
    rewrite clean_value_lookup in Hv.
    destruct (t !! py "value") as [v0|]; simpl in Hv; [|done].
    injection Hv as <-. apply list_elem_of_fmap in Hc as (c0 & -> & _).
    apply clean_char_allowed.
Qed.

(** C8. Validating the result of a validation returns it unchanged and
    logs nothing; a list whose values already lie in the restricted set,
    without newline, is returned as it is. *)
Theorem validate_idempotent tags st :
  ∃ res st1,
    _validate_ecs_tag_values tags st = (inr res, st1)
    ∧ _validate_ecs_tag_values res st1 = (inr res, st1)
    ∧ ((∀ t v c, t ∈ tags → t !! py "value" = Some v → c ∈ v →
          in_restricted_set c = true ∧ c ≠ chr_newline) →
       res = tags ∧ st1 = st).
Proof.
  eexists _, _. split; [apply validate_run|]. split.
  - rewrite validate_run. cbn [config trace]. f_equal.
    + f_equal. rewrite <- list_fmap_compose. apply list_fmap_ext.
      intros _ t _. apply clean_value_idemp.
    + replace ((clean_value <$> tags) ≫= value_warning) with (@nil log_record).
      * simpl. by rewrite app_nil_r.
      * induction tags as [|t tags IH]; [done|].
        rewrite fmap_cons, bind_cons, value_warning_clean. exact IH.
  - intros Hok.
    assert (Hc : ∀ t, t ∈ tags → clean_value t = t ∧ value_warning t = []).
    { intros t Ht. unfold clean_value, value_warning.
      destruct (t !! py "value") as [v|] eqn:Hv; [|done].
      rewrite clean_chars_id by (intros c Hc; by apply (Hok t v c)).
      split; [by apply insert_id|]. by rewrite decide_True. }
    assert (H1 : clean_value <$> tags = tags).
    { rewrite <- (list_fmap_id tags) at 2. apply list_fmap_ext.
      intros i t Ht%list_elem_of_lookup_2. by apply Hc. }
    assert (H2 : tags ≫= value_warning = []).
    { clear H1 Hok. induction tags as [|t tags IH]; [done|].
      rewrite bind_cons. destruct (Hc t) as [_ ->]; [by left|].
      apply IH. intros t' Ht'. apply Hc. by right. }
    rewrite H1, H2. split; [done|]. apply state_eta.
Qed.

(** The letters of the set are the ASCII ones: [e] with an acute accent
    (code point 233) becomes a space. *)
Lemma accented_letter_is_replaced : clean_char 233 = chr_space.
Proof. reflexivity. Qed.

(** Only the field [value] is read: a record that holds its value under
    [Value] comes back as it was. *)
Lemma validation_skips_Value_field :
  validate_ecs_tag_values [Key_Value "Name" "a#b"] = ([Key_Value "Name" "a#b"], []).
Proof. vm_compute. reflexivity. Qed.

Lemma validate_idempotent_witness :
  ∃ res st1,
    _validate_ecs_tag_values [key_value "Name" "web server"] example_state = (inr res, st1)
    ∧ _validate_ecs_tag_values res st1 = (inr res, st1)
    ∧ res = [key_value "Name" "web server"] ∧ st1 = example_state.
Proof.
  destruct (validate_idempotent [key_value "Name" "web server"] example_state)
    as (res & st1 & H1 & H2 & H3).
  exists res, st1. split; [exact H1|]. split; [exact H2|].
  apply H3. intros t v c Ht Hv Hc.
  apply list_elem_of_singleton in Ht as ->.
  injection Hv as <-. revert c Hc. apply Forall_forall.
  repeat constructor; by_compute.
Defined.


(** ** The tagging paths *)

Lemma try_tagging_run c (b1 b2 : bool) l1 a1 l2 a2 w st :
  try_except
    ((if b1 then log l1;; call c a1 else pass);;
     (if b2 then log l2;; call c a2 else pass))
    (λ ex, log (w ex)) st
  = (inr (), {| config := config st;
                trace := trace st ++ tagging_events c (trace st) b1 l1 a1 b2 l2 a2 w |}).
Proof.
  destruct st as [cfg tr].
  unfold try_except, tagging_events, attempt, mbind, M_bind, log, emit, call, pass, mret, M_ret.
  simpl.
  destruct b1; simpl.
  - destruct (c (tr ++ [Log l1]) a1) as [ex|]; simpl.
    + by rewrite <- !app_assoc.
    + destruct b2; simpl.
      * rewrite <- !app_assoc. simpl.
        destruct (c (tr ++ Log l1 :: Call a1 :: [Log l2]) a2) as [ex|]; simpl;
          by rewrite <- ?app_assoc.
      * by rewrite <- !app_assoc.
  - destruct b2; simpl.
    + rewrite !app_nil_r.
      destruct (c (tr ++ [Log l2]) a2) as [ex|]; simpl; by rewrite <- ?app_assoc.
    + by rewrite app_nil_r.
Qed.

Lemma keys_of_ok ts :
  Forall (λ t, is_Some (t !! py "key")) ts → keys_of ts = inr (key_of <$> ts).
Proof.
  induction 1 as [|t ts [k Hk] _ IH]; [done|].
  simpl. rewrite Hk, IH. simpl. unfold key_of. by rewrite Hk.
Qed.

Lemma rename_Key_Value_key t :
  rename_Key_Value t !! py "key" =
    match t !! py "Key", t !! py "Value" with
    | Some k, Some _ => Some k
    | _, _ => t !! py "key"
    end.
Proof.
  unfold rename_Key_Value.
  destruct (t !! py "Key") as [k|], (t !! py "Value") as [v|]; try done.
  rewrite lookup_insert_ne by done. rewrite lookup_delete_ne by done.
  by rewrite lookup_insert_eq.
Qed.

Lemma tag_record_key t : tag_record t → is_Some (rename_Key_Value t !! py "key").
Proof.
  rewrite rename_Key_Value_key.
  intros [[[k Hk] [v Hv]]|Hk].
  - rewrite Hk, Hv. eauto.
  - destruct (t !! py "Key"), (t !! py "Value"); eauto.
Qed.

Lemma tag_record_clean t : tag_record t → tag_record (clean_value t).
Proof.
  unfold tag_record. rewrite !clean_value_lookup_ne by done. done.
Qed.

Lemma M_bind_run {A B} (m : M A) (k : A → M B) st :
  (m ≫= k) st =
    match m st with
    | (inl e, st') => (inl e, st')
    | (inr a, st') => k a st'
    end.
Proof. reflexivity. Qed.

Lemma rename_if_nonempty (ts : list Tag) :
  (if bool_decide (0 < length ts) then rename_Key_Value <$> ts else ts)
  = rename_Key_Value <$> ts.
Proof. by destruct ts. Qed.

Lemma stop_tag_set_keys cfg r :
  Forall tag_record (stopped_tags cfg) →
  keys_of (stop_tag_set cfg r) = inr (key_of <$> stop_tag_set cfg r).
Proof.
  intros Hs. apply keys_of_ok. unfold stop_tag_set.
  rewrite validate_ecs_tag_values_eq. simpl.
  apply Forall_app. split.
  - rewrite !Forall_fmap. eapply Forall_impl; [exact Hs|].
    intros t Ht. simpl. by apply tag_record_key, tag_record_clean.
  - constructor; [|constructor]. unfold captured_tag.
    rewrite lookup_insert_eq. eauto.
Qed.

Lemma start_tag_set_keys cfg :
  Forall tag_record (started_tags cfg) →
  keys_of (start_tag_set cfg) = inr (key_of <$> start_tag_set cfg).
Proof.
  intros Hs. apply keys_of_ok. unfold start_tag_set.
  rewrite validate_ecs_tag_values_eq. simpl.
  rewrite !Forall_fmap. eapply Forall_impl; [exact Hs|].
  intros t Ht. simpl. by apply tag_record_key, tag_record_clean.
Qed.

Lemma renamed_keys ts :
  Forall tag_record ts →
  keys_of (rename_Key_Value <$> ts) = inr (key_of <$> (rename_Key_Value <$> ts)).
Proof.
  intros Hs. apply keys_of_ok. rewrite Forall_fmap.
  eapply Forall_impl; [exact Hs|]. intros t Ht. by apply tag_record_key.
Qed.

Lemma tag_stopped_run c r st :
  well_formed (config st) →
  let cfg := config st in
  let pre := trace st ++ (Log <$> (validate_ecs_tag_values (stopped_tags cfg)).2) in
  let removal := stop_removal_keys cfg r in
  let stop_tags := stop_tag_set cfg r in
  _tag_stopped_resource c r st =
    (inr (),
     {| config := {| tag_name := tag_name cfg;
                     started_tags := rename_Key_Value <$> started_tags cfg;
                     stopped_tags := stopped_tags cfg |};
        trace := pre ++ tagging_events c pre
                   (bool_decide (length removal ≠ 0))
                   (INF_REMOVE_KEYS (py "start") removal (inst_arn r))
                   (untag_resource (inst_arn r) removal)
                   true
                   (INF_ADD_TAGS (py "stop") stop_tags (inst_arn r))
                   (tag_resource (inst_arn r) stop_tags)
                   (WARN_TAGGING_STOPPED (inst_id r)) |}).
Proof.
  intros [Hst Hsp] cfg pre removal stop_tags.
  unfold _tag_stopped_resource.
  rewrite M_bind_run. unfold get_config at 1. cbn beta iota.
  rewrite M_bind_run, validate_run. cbn beta iota.
  rewrite rename_if_nonempty.
  rewrite M_bind_run. unfold set_started_tags at 1. cbn beta iota.
  rewrite M_bind_run. unfold lift at 1. cbn beta iota.
  fold cfg.
  assert (Hset : (rename_Key_Value <$> (clean_value <$> stopped_tags cfg))
                 ++ [captured_tag (inst_desired_count r)] = stop_tags).
  { unfold stop_tags, stop_tag_set. by rewrite validate_ecs_tag_values_eq. }
  rewrite Hset. unfold stop_tags at 1. rewrite stop_tag_set_keys by done.
  rewrite M_bind_run. unfold lift at 1. cbn beta iota.
  unfold keys_not_in. rewrite renamed_keys by done. cbn [mbind result_bind rbind].
  fold removal. fold stop_tags.
  replace (bool_decide (0 < length stop_tags)) with true.
  2:{ symmetry. apply bool_decide_eq_true. unfold stop_tags, stop_tag_set.
      rewrite length_app. simpl. lia. }
  etrans; [exact (try_tagging_run c _ true _ _ _ _ _ _)|].
  cbn [config trace]. unfold pre. by rewrite validate_ecs_tag_values_eq.
Qed.

Lemma tag_started_run c r st :
  well_formed (config st) →
  let cfg := config st in
  let pre := trace st ++ (Log <$> (validate_ecs_tag_values (started_tags cfg)).2) in
  let removal := start_removal_keys cfg in
  let start_tags := start_tag_set cfg in
  _tag_started_instances c r st =
    (inr (),
     {| config := {| tag_name := tag_name cfg;
                     started_tags := started_tags cfg;
                     stopped_tags := rename_Key_Value <$> stopped_tags cfg |};
        trace := pre ++ tagging_events c pre
                   (bool_decide (length removal ≠ 0))
                   (INF_REMOVE_KEYS (py "stop") removal (inst_arn r))
                   (untag_resource (inst_arn r) removal)
                   (bool_decide (0 < length start_tags))
                   (INF_ADD_TAGS (py "start") start_tags (inst_arn r))
                   (tag_resource (inst_arn r) start_tags)
                   (WARN_TAGGING_STARTED (inst_id r)) |}).
Proof.
  intros [Hst Hsp] cfg pre removal start_tags.
  unfold _tag_started_instances.
  rewrite M_bind_run. unfold get_config at 1. cbn beta iota.
  rewrite M_bind_run, validate_run. cbn beta iota.
  rewrite rename_if_nonempty.
  rewrite M_bind_run. unfold set_stopped_tags at 1. cbn beta iota.
  rewrite M_bind_run. unfold lift at 1. cbn beta iota.
  fold cfg.
  assert (Hset : rename_Key_Value <$> (clean_value <$> started_tags cfg) = start_tags).
  { unfold start_tags, start_tag_set. by rewrite validate_ecs_tag_values_eq. }
  rewrite Hset. unfold start_tags at 1. rewrite start_tag_set_keys by done.
  rewrite M_bind_run. unfold lift at 1. cbn beta iota.
  unfold keys_not_in. rewrite renamed_keys by done. cbn [mbind result_bind rbind].
  etrans; [exact (try_tagging_run c _ _ _ _ _ _ _ _)|].
  cbn [config trace]. unfold pre. by rewrite validate_ecs_tag_values_eq.
Qed.

(** ** Integers as text *)

Lemma digits_value_digits s :
  Forall (λ c, is_digit c = true) s →
  ∀ a p, s ≠ [] ∨ p = true → digits_value a p s = Some (digits_fold a s, []).
Proof.
  induction 1 as [|c s Hc _ IH]; intros a p Hp; simpl.
  - destruct Hp as [?| ->]; done.
  - rewrite Hc. apply IH. by right.
Qed.

Lemma digits_of_app fuel : ∀ n acc, digits_of fuel n acc = digits_of fuel n [] ++ acc.
Proof.
  induction fuel as [|f IH]; intros n acc; simpl; [done|].
  destruct (n / 10 =? 0)%N; [done|].
  rewrite (IH _ (_ :: acc)), (IH _ [_]). by rewrite <- app_assoc.
Qed.

Lemma digits_of_digits fuel : ∀ n, Forall (λ c, is_digit c = true) (digits_of fuel n []).
Proof.
  assert (Hd : ∀ n, is_digit (48 + n mod 10) = true).
  { intros n. unfold is_digit.
    pose proof (N.mod_upper_bound n 10 ltac:(lia)) as Hm.
    generalize dependent (n mod 10)%N. intros m Hm.
    apply andb_true_iff. split; apply N.leb_le; lia. }
  induction fuel as [|f IH]; intros n; simpl.
  - constructor; [apply Hd|constructor].
  - destruct (n / 10 =? 0)%N.
    + constructor; [apply Hd|constructor].
    + rewrite digits_of_app. apply Forall_app. split; [apply IH|].
      constructor; [apply Hd|constructor].
Qed.

Lemma digits_of_nonempty fuel n : digits_of fuel n [] ≠ [].
Proof.
  destruct fuel; simpl; [done|].
  destruct (n / 10 =? 0)%N; [done|].
  rewrite digits_of_app. intros H. by apply app_eq_nil in H as [_ ?].
Qed.

Lemma digits_fold_digits_of fuel :
  ∀ n, N.to_nat n ≤ fuel → digits_fold 0 (digits_of fuel n []) = Z.of_N n.
Proof.
  assert (Hone : ∀ a n, digits_fold a [(48 + n mod 10)%N] = (a * 10 + Z.of_N (n mod 10))%Z).
  { intros a n. unfold digits_fold. simpl. do 2 f_equal.
    generalize (n mod 10)%N. intros m. lia. }
  induction fuel as [|f IH]; intros n Hn; cbn [digits_of].
  - rewrite Hone. replace n with 0%N by lia. done.
  - destruct (N.eqb_spec (n / 10) 0) as [H0|H0].
    + rewrite Hone. pose proof (N.div_mod n 10 ltac:(lia)) as Hdm.
      rewrite H0 in Hdm. generalize dependent (n mod 10)%N. intros m Hdm. lia.
    + rewrite digits_of_app. unfold digits_fold. rewrite foldl_app.
      fold (digits_fold 0 (digits_of f (n / 10) [])).
      rewrite IH.
      * fold (digits_fold (Z.of_N (n / 10)) [(48 + n mod 10)%N]). rewrite Hone.
        pose proof (N.div_mod n 10 ltac:(lia)) as Hdm.
        set (q := (n / 10)%N) in *. set (m := (n mod 10)%N) in *.
        clearbody q m. lia.
      * pose proof (N.div_mod n 10 ltac:(lia)) as Hdm.
        pose proof (N.mod_upper_bound n 10 ltac:(lia)) as Hm.
        set (q := (n / 10)%N) in *. set (m := (n mod 10)%N) in *.
        clearbody q m. lia.
Qed.

Lemma is_digit_ascii c :
  is_digit c = true → to_ascii c = c ∧ is_c_space c = false.
Proof.
  unfold is_digit, to_ascii, is_c_space.
  rewrite andb_true_iff, !N.leb_le. intros [H1 H2]. split.
  - destruct (N.ltb_spec c 127); [done|lia].
  - apply orb_false_iff. split;
      rewrite ?andb_false_iff, ?N.leb_gt, ?N.eqb_neq; lia.
Qed.

Lemma to_ascii_digits s :
  Forall (λ c, is_digit c = true) s → to_ascii <$> s = s.
Proof.
  induction 1 as [|c s Hc _ IH]; [done|].
  rewrite fmap_cons, IH. f_equal. by apply is_digit_ascii.
Qed.

Lemma py_int_py_str n : py_int (py_str n) = inr n.
Proof.
  unfold py_str, py_int.
  destruct (Z.ltb_spec n 0) as [Hneg|Hpos].
  - set (ds := digits_of _ _ _).
    assert (Hd : Forall (λ c, is_digit c = true) ds) by apply digits_of_digits.
    rewrite fmap_cons, to_ascii_digits by done.
    change (to_ascii 45) with 45%N.
    change (skip_spaces (45%N :: ds)) with (45%N :: ds). cbv iota beta.
    change (45 =? 43)%N with false. change (45 =? 45)%N with true. cbv iota beta.
    rewrite digits_value_digits; [|done|left; apply digits_of_nonempty].
    cbn [skip_spaces].
    unfold ds. rewrite digits_fold_digits_of by lia. f_equal. lia.
  - set (ds := digits_of _ _ _).
    assert (Hd : Forall (λ c, is_digit c = true) ds) by apply digits_of_digits.
    assert (Hne : ds ≠ []) by apply digits_of_nonempty.
    rewrite to_ascii_digits by done.
    destruct ds as [|c r] eqn:Hds; [done|].
    assert (Hc : is_digit c = true) by (by apply Forall_cons in Hd as [? _]).
    cbn [skip_spaces]. rewrite (proj2 (is_digit_ascii c Hc)).
    assert ((c =? 45)%N = false ∧ (c =? 43)%N = false) as [-> ->].
    { unfold is_digit in Hc. apply andb_true_iff in Hc as [H1 H2].
      apply N.leb_le in H1, H2. rewrite !N.eqb_neq. lia. }
    rewrite digits_value_digits; [|done|by left].
    cbn [skip_spaces].
    rewrite <- Hds. unfold ds. rewrite digits_fold_digits_of by lia. f_equal. lia.
Qed.

(** ** Events a tagging path adds *)

Lemma calls_of_app tr1 tr2 : calls_of (tr1 ++ tr2) = calls_of tr1 ++ calls_of tr2.
Proof. unfold calls_of. apply bind_app. Qed.

Lemma calls_of_logs rs : calls_of (Log <$> rs) = [].
Proof. induction rs as [|r rs IH]; [done|]. exact IH. Qed.

Lemma logs_then_call ws E tr a rest :
  (Log <$> ws) ++ E = tr ++ Call a :: rest →
  ∃ tr', tr = (Log <$> ws) ++ tr' ∧ E = tr' ++ Call a :: rest.
Proof.
  revert tr. induction ws as [|w ws IH]; intros tr H; simpl in *.
  - by exists tr.
  - destruct tr as [|e tr]; simplify_eq/=.
    destruct (IH tr) as (tr' & -> & ->); [done|]. by exists tr'.
Qed.

Lemma app_split_after {A} (l1 l2 k1 k2 : list A) :
  l1 ++ l2 = k1 ++ k2 → length l1 ≤ length k1 →
  ∃ k, k1 = l1 ++ k ∧ l2 = k ++ k2.
Proof.
  revert k1. induction l1 as [|x l1 IH]; intros k1 H Hlen; simpl in *.
  - by exists k1.
  - destruct k1 as [|y k1]; simpl in *; [lia|]. simplify_eq.
    destruct (IH k1) as (k & -> & ->); [done|lia|]. by exists k.
Qed.

(** In the [try] block, a call that raised is followed by the warning
    with its exception and by nothing else. *)
Lemma tagging_events_raise c pre b1 l1 a1 b2 l2 a2 w tr a rest ex :
  tagging_events c pre b1 l1 a1 b2 l2 a2 w = tr ++ Call a :: rest →
  c (pre ++ tr) a = Some ex →
  rest = [Log (w ex)].
Proof.
  unfold tagging_events, attempt. intros Heq Hc.
  destruct b1, b2; simpl in Heq;
    repeat match type of Heq with
           | context [c ?t ?x] =>
               let H := fresh "Hx" in destruct (c t x) eqn:H; simpl in Heq
           end;
    rewrite <- ?app_assoc in *; simpl in *;
    repeat (destruct tr as [|? tr]; simplify_eq/=);
    rewrite ?app_nil_r in *; congruence.
Qed.

(** Whatever the keys and the client do, a tagging path leaves the
    renamed list in the configuration and only adds to the trace. *)
Lemma tag_stopped_state c r st :
  ∃ evs, (_tag_stopped_resource c r st).2 =
    {| config := {| tag_name := tag_name (config st);
                    started_tags := rename_Key_Value <$> started_tags (config st);
                    stopped_tags := stopped_tags (config st) |};
       trace := trace st ++ evs |}.
Proof.
  unfold _tag_stopped_resource.
  rewrite M_bind_run. unfold get_config at 1. cbn beta iota.
  rewrite M_bind_run, validate_run. cbn beta iota.
  rewrite rename_if_nonempty.
  rewrite M_bind_run. unfold set_started_tags at 1. cbn beta iota.
  rewrite M_bind_run. unfold lift at 1. cbn beta iota.
  destruct (keys_of _) as [e|names]; [by eexists|].
  rewrite M_bind_run. unfold lift at 1. cbn beta iota.
  destruct (keys_not_in _ _) as [e|keys]; [by eexists|].
  rewrite try_tagging_run. cbn [snd config trace]. rewrite <- app_assoc. by eexists.
Qed.

Lemma tag_started_state c r st :
  ∃ evs, (_tag_started_instances c r st).2 =
    {| config := {| tag_name := tag_name (config st);
                    started_tags := started_tags (config st);
                    stopped_tags := rename_Key_Value <$> stopped_tags (config st) |};
       trace := trace st ++ evs |}.
Proof.
  unfold _tag_started_instances.
  rewrite M_bind_run. unfold get_config at 1. cbn beta iota.
  rewrite M_bind_run, validate_run. cbn beta iota.
  rewrite rename_if_nonempty.
  rewrite M_bind_run. unfold set_stopped_tags at 1. cbn beta iota.
  rewrite M_bind_run. unfold lift at 1. cbn beta iota.
  destruct (keys_of _) as [e|names]; [by eexists|].
  rewrite M_bind_run. unfold lift at 1. cbn beta iota.
  destruct (keys_not_in _ _) as [e|keys]; [by eexists|].
  rewrite try_tagging_run. cbn [snd config trace]. rewrite <- app_assoc. by eexists.
Qed.

(** ** Processing one resource *)

Lemma stop_one_run c r st :
  well_formed (config st) →
  c (trace st) (update_service (inst_cluster_arn r) (inst_arn r) 0) = None →
  let cfg := config st in
  let pre := (trace st ++ [Call (update_service (inst_cluster_arn r) (inst_arn r) 0)])
             ++ (Log <$> (validate_ecs_tag_values (stopped_tags cfg)).2) in
  let removal := stop_removal_keys cfg r in
  let stop_tags := stop_tag_set cfg r in
  stop_one c r st =
    (inr (inst_id r, STATE_STOPPED),
     {| config := {| tag_name := tag_name cfg;
                     started_tags := rename_Key_Value <$> started_tags cfg;
                     stopped_tags := stopped_tags cfg |};
        trace := pre ++ tagging_events c pre
                   (bool_decide (length removal ≠ 0))
                   (INF_REMOVE_KEYS (py "start") removal (inst_arn r))
                   (untag_resource (inst_arn r) removal)
                   true
                   (INF_ADD_TAGS (py "stop") stop_tags (inst_arn r))
                   (tag_resource (inst_arn r) stop_tags)
                   (WARN_TAGGING_STOPPED (inst_id r)) |}).
Proof.
  intros Hwf Hc cfg pre removal stop_tags.
  unfold stop_one. rewrite M_bind_run. unfold call at 1. rewrite Hc.
  rewrite M_bind_run.
  set (st1 := {| config := config st; trace := trace st ++ [_] |}).
  by rewrite (tag_stopped_run c r st1).
Qed.

Lemma start_one_run c r st s n :
  well_formed (config st) →
  inst_tags r !! LAST_DESIRED_COUNT = Some s →
  py_int s = inr n →
  c (trace st) (update_service (inst_cluster_arn r) (inst_arn r) n) = None →
  let cfg := config st in
  let pre := (trace st ++ [Call (update_service (inst_cluster_arn r) (inst_arn r) n)])
             ++ (Log <$> (validate_ecs_tag_values (started_tags cfg)).2) in
  let removal := start_removal_keys cfg in
  let start_tags := start_tag_set cfg in
  start_one c r st =
    (inr (inst_id r, STATE_RUNNING),
     {| config := {| tag_name := tag_name cfg;
                     started_tags := started_tags cfg;
                     stopped_tags := rename_Key_Value <$> stopped_tags cfg |};
        trace := pre ++ tagging_events c pre
                   (bool_decide (length removal ≠ 0))
                   (INF_REMOVE_KEYS (py "stop") removal (inst_arn r))
                   (untag_resource (inst_arn r) removal)
                   (bool_decide (0 < length start_tags))
                   (INF_ADD_TAGS (py "start") start_tags (inst_arn r))
                   (tag_resource (inst_arn r) start_tags)
                   (WARN_TAGGING_STARTED (inst_id r)) |}).
Proof.
  intros Hwf Hs Hn Hc cfg pre removal start_tags.
  unfold start_one. rewrite M_bind_run. unfold lift at 1. rewrite Hs, Hn.
  rewrite M_bind_run. unfold call at 1. rewrite Hc.
  rewrite M_bind_run.
  set (st1 := {| config := config st; trace := trace st ++ [_] |}).
  by rewrite (tag_started_run c r st1).
Qed.

(** After the resize, a raising call of a tagging path ends the trace
    with its warning. *)
Lemma raise_after_resize c (tr0 : list event) u ws pre w b1 l1 a1 b2 l2 a2 tr a rest ex :
  pre = (tr0 ++ [Call u]) ++ (Log <$> ws) →
  pre ++ tagging_events c pre b1 l1 a1 b2 l2 a2 w = tr ++ Call a :: rest →
  length tr0 < length tr →
  c tr a = Some ex →
  rest = [Log (w ex)].
Proof.
  intros -> Heq Hlen Hc.
  rewrite <- !app_assoc in Heq.
  apply app_split_after in Heq as (k & -> & Heq); [|lia].
  destruct k as [|e k]; [rewrite length_app in Hlen; simpl in Hlen; lia|].
  simpl in Heq. injection Heq as <- Heq.
  apply logs_then_call in Heq as (tr' & -> & Heq).
  eapply tagging_events_raise; [exact Heq|].
  by rewrite <- !app_assoc in *.
Qed.

(** ** The batch loop *)

Section Batch.

Context {Y : Type}.
Variable body : Instance → M Y.
Variable handler : Instance → exn → M unit.

(** A batch whose every resource yielded continues with the next
    resources from the state it reached. *)
Lemma for_yield_app pre : ∀ rest st ys st_k,
  for_yield body handler pre st = (ys, st_k) →
  length ys = length pre →
  for_yield body handler (pre ++ rest) st =
    ((ys ++ (for_yield body handler rest st_k).1),
     (for_yield body handler rest st_k).2).
Proof.
  induction pre as [|r pre IH]; intros rest st ys st_k Hrun Hlen; simpl in *.
  - simplify_eq. simpl. by destruct (for_yield _ _ _ _).
  - destruct (body r st) as [[ex|y] st1]; [by simplify_eq|].
    destruct (for_yield body handler pre st1) as [ys1 st2] eqn:Hpre.
    simplify_eq. simpl in Hlen.
    rewrite (IH rest st1 ys1 st_k) by (done || lia). done.
Qed.

(** The first resource whose processing raises ends the batch: what was
    yielded before stays, the handler runs once, and the resources
    after it play no part. *)
Lemma for_yield_abort pre r post st ys st_k ex st_e :
  for_yield body handler pre st = (ys, st_k) →
  length ys = length pre →
  body r st_k = (inl ex, st_e) →
  for_yield body handler (pre ++ r :: post) st = (ys, (handler r ex st_e).2).
Proof.
  intros Hrun Hlen Hr. rewrite (for_yield_app pre _ st ys st_k) by done.
  simpl. rewrite Hr. simpl. by rewrite app_nil_r.
Qed.

(** The values yielded belong to a prefix of the input, in its order. *)
Lemma for_yield_prefix (f : Instance → Y) :
  (∀ r st y st', body r st = (inr y, st') → y = f r) →
  ∀ rs st, (for_yield body handler rs st).1
           = f <$> take (length (for_yield body handler rs st).1) rs.
Proof.
  intros Hf. induction rs as [|r rs IH]; intros st; simpl; [done|].
  destruct (body r st) as [[ex|y] st1] eqn:Hr; [done|].
  specialize (IH st1). destruct (for_yield body handler rs st1) as [ys st2].
  simpl in *. f_equal; [exact (Hf _ _ _ _ Hr)|exact IH].
Qed.

End Batch.

Lemma stop_one_value c r st y st' :
  stop_one c r st = (inr y, st') → y = (inst_id r, STATE_STOPPED).
Proof.
  unfold stop_one. rewrite !M_bind_run.
  destruct (call c _ st) as [[?|?] ?]; [done|].
  rewrite M_bind_run.
  destruct (_tag_stopped_resource c r _) as [[?|?] ?]; [done|].
  by intros [= <- _].
Qed.

Lemma start_one_value c r st y st' :
  start_one c r st = (inr y, st') → y = (inst_id r, STATE_RUNNING).
Proof.
  unfold start_one. rewrite !M_bind_run.
  destruct (lift _ st) as [[?|?] ?]; [done|].
  rewrite M_bind_run.
  destruct (call c _ _) as [[?|?] ?]; [done|].
  rewrite M_bind_run.
  destruct (_tag_started_instances c r _) as [[?|?] ?]; [done|].
  by intros [= <- _].
Qed.

Lemma stop_instances_prefix c rs st :
  (stop_instances c rs st).1
    = (λ r, (inst_id r, STATE_STOPPED)) <$> take (length (stop_instances c rs st).1) rs.
Proof. unfold stop_instances. apply for_yield_prefix, stop_one_value. Qed.

Lemma start_instances_prefix c rs st :
  (start_instances c rs st).1
    = (λ r, (inst_id r, STATE_RUNNING)) <$> take (length (start_instances c rs st).1) rs.
Proof. unfold start_instances. apply for_yield_prefix, start_one_value. Qed.

(** C5. In both batch methods the values yielded are the outcomes of a
    prefix of the input, in input order; when the resources before
    resource k all yielded and processing resource k raises, the batch
    returns exactly the outcomes of those before k and ends in the state
    the failure left, with the error logged for resource k: nothing is
    yielded for k and the resources after k are not touched. *)
Theorem fail_fast_batch c pre r post st :
  (∀ ys st_k ex st_e,
     stop_instances c pre st = (ys, st_k) →
     length ys = length pre →
     stop_one c r st_k = (inl ex, st_e) →
     stop_instances c (pre ++ r :: post) st =
       ((λ r, (inst_id r, STATE_STOPPED)) <$> pre,
        {| config := config st_e;
           trace := trace st_e
                    ++ [Log (ERR_STOPPING_INSTANCE (cluster_or_instance r) (inst_arn r) ex)] |}))
  ∧ (∀ ys st_k ex st_e,
     start_instances c pre st = (ys, st_k) →
     length ys = length pre →
     start_one c r st_k = (inl ex, st_e) →
     start_instances c (pre ++ r :: post) st =
       ((λ r, (inst_id r, STATE_RUNNING)) <$> pre,
        {| config := config st_e;
           trace := trace st_e
                    ++ [Log (ERR_STARTING_INSTANCE (cluster_or_instance r) (inst_arn r) ex)] |}))
  ∧ (∀ rs,
       (stop_instances c rs st).1
         = (λ r, (inst_id r, STATE_STOPPED)) <$> take (length (stop_instances c rs st).1) rs
     ∧ (start_instances c rs st).1
         = (λ r, (inst_id r, STATE_RUNNING)) <$> take (length (start_instances c rs st).1) rs).
Proof.
  split_and!.
  - intros ys st_k ex st_e Hrun Hlen Hr. unfold stop_instances in *.
    rewrite (for_yield_abort _ _ pre r post st ys st_k ex st_e) by done.
    f_equal.
    pose proof (stop_instances_prefix c pre st) as Hp. unfold stop_instances in Hp.
    rewrite Hrun in Hp. simpl in Hp. rewrite Hlen in Hp.
    by rewrite firstn_all in Hp.
  - intros ys st_k ex st_e Hrun Hlen Hr. unfold start_instances in *.
    rewrite (for_yield_abort _ _ pre r post st ys st_k ex st_e) by done.
    f_equal.
    pose proof (start_instances_prefix c pre st) as Hp. unfold start_instances in Hp.
    rewrite Hrun in Hp. simpl in Hp. rewrite Hlen in Hp.
    by rewrite firstn_all in Hp.
  - intros rs. split.
    + apply stop_instances_prefix.
    + apply start_instances_prefix.
Qed.

Lemma fail_fast_batch_witness :
  let c := client_refusing (inst_arn api_service) in
  (stop_instances c [web; api_service; jobs] example_state).1 = [(py "web", STATE_STOPPED)]
  ∧ (start_instances c [web; api_service; jobs] example_state).1 = [(py "web", STATE_RUNNING)].
Proof.
  intros c.
  destruct (fail_fast_batch c [web] api_service [jobs] example_state) as (Hs & Hr & _).
  split.
  - change [web; api_service; jobs] with ([web] ++ api_service :: [jobs]).
    erewrite Hs;
      [reflexivity | apply surjective_pairing
       | vm_compute; reflexivity | vm_compute; reflexivity].
  - change [web; api_service; jobs] with ([web] ++ api_service :: [jobs]).
    erewrite Hr;
      [reflexivity | apply surjective_pairing
       | vm_compute; reflexivity | vm_compute; reflexivity].
Defined.

(** ** The tag delta of a stop *)

(** C7. For a configuration of tag records, when the removal call
    returns, the stop path makes these calls and no other: a removal of
    the keys of the started set that are not keys of the applied set, in
    the order of the started set, if there is such a key; then the
    application of the configured stopped set, validated, with one more
    tag at its end, whose key is [ScheduledLastDesiredCount] and whose
    value is the decimal text of the desired count of the resource. The
    applied set is thus never empty and the application is always issued;
    validation leaves the keys of the configured set as they are, so the
    keys removed are those of the started set that are neither a key of
    the stopped set nor [ScheduledLastDesiredCount]. *)
Theorem stop_transition_tag_delta c r st :
  well_formed (config st) →
  let cfg := config st in
  let configured :=
    rename_Key_Value <$> (validate_ecs_tag_values (stopped_tags cfg)).1 in
  let captured : Tag :=
    {[ py "key" := py "ScheduledLastDesiredCount";
       py "value" := py_str (inst_desired_count r) ]} in
  let applied := configured ++ [captured] in
  let removal :=
    filter (λ k, k ∉ key_of <$> applied)
           (key_of <$> (rename_Key_Value <$> started_tags cfg)) in
  (∀ tr, c tr (untag_resource (inst_arn r) removal) = None) →
  ∃ st',
    _tag_stopped_resource c r st = (inr (), st')
    ∧ calls_of (drop (length (trace st)) (trace st'))
      = (if decide (removal = []) then []
         else [untag_resource (inst_arn r) removal])
        ++ [tag_resource (inst_arn r) applied]
    ∧ (key_of <$> configured) = (key_of <$> (rename_Key_Value <$> stopped_tags cfg))
    ∧ (∀ k, k ∈ removal ↔
            k ∈ key_of <$> (rename_Key_Value <$> started_tags cfg)
            ∧ (k ∉ key_of <$> (rename_Key_Value <$> stopped_tags cfg))
            ∧ k ≠ py "ScheduledLastDesiredCount").
Proof.
  intros Hwf. cbn zeta.
  assert (Hset : (rename_Key_Value <$> (validate_ecs_tag_values (stopped_tags (config st))).1)
                 ++ [{[ py "key" := py "ScheduledLastDesiredCount";
                        py "value" := py_str (inst_desired_count r) ]}]
                 = stop_tag_set (config st) r).
  { unfold stop_tag_set, captured_tag, LAST_DESIRED_COUNT. by rewrite insert_empty. }
  assert (Hkeys : key_of <$> (rename_Key_Value
                    <$> (validate_ecs_tag_values (stopped_tags (config st))).1)
                  = key_of <$> (rename_Key_Value <$> stopped_tags (config st))).
  { rewrite validate_ecs_tag_values_eq. cbn [fst].
    rewrite <- !list_fmap_compose. apply list_fmap_ext. intros _ t _. simpl.
    unfold key_of. rewrite !rename_Key_Value_key.
    by rewrite !clean_value_lookup_ne by done. }
  rewrite Hset. fold (stop_removal_keys (config st) r). intros Hc.
  eexists. split; [by apply tag_stopped_run|]. cbn [trace].
  split_and!.
  - rewrite <- app_assoc, drop_app_length, calls_of_app, calls_of_logs. simpl.
    unfold tagging_events, attempt.
    revert Hc. destruct (stop_removal_keys (config st) r) as [|k ks]; intros Hc.
    + simpl. by destruct (c _ _).
    + rewrite (bool_decide_eq_true_2 _) by done. rewrite Hc.
      simpl. by destruct (c _ _).
  - exact Hkeys.
  - intros k. unfold stop_removal_keys. rewrite list_elem_of_filter.
    rewrite <- Hset, fmap_app, Hkeys, not_elem_of_app.
    change (key_of <$> [_]) with [py "ScheduledLastDesiredCount"].
    rewrite list_elem_of_singleton. tauto.
Qed.

Lemma example_config_well_formed : well_formed (config example_state).
Proof. unfold well_formed, tag_record. by_compute. Qed.

Lemma stop_transition_tag_delta_witness :
  ∃ st',
    _tag_stopped_resource quiet_client web example_state = (inr (), st')
    ∧ calls_of (trace st')
      = [ untag_resource (inst_arn web) [py "StartedBy"];
          tag_resource (inst_arn web)
            [ key_value "State" "stopped";
              key_value "ScheduledLastDesiredCount" "4" ] ].
Proof.
  destruct (stop_transition_tag_delta quiet_client web example_state
              example_config_well_formed (λ _, eq_refl))
    as (st' & H1 & H2 & _).
  exists st'. split; [exact H1|].
  vm_compute in H2. vm_compute. exact H2.
Defined.

(** ** Tagging failures *)

(** C6. Whatever the client answers to the removal and application calls,
    once the resize of a resource has returned the resource is reported
    and the batch goes on with the next one; the resize is the first
    event recorded for it, and a tagging call that raised is followed only
    by the warning with its exception. This holds on the stop path and on
    the start path. *)
Theorem tagging_failures_not_fatal c r rs st :
  well_formed (config st) →
  (c (trace st) (update_service (inst_cluster_arn r) (inst_arn r) 0) = None →
   ∃ st',
     stop_one c r st = (inr (inst_id r, STATE_STOPPED), st')
     ∧ (∃ evs, trace st' =
               trace st ++ Call (update_service (inst_cluster_arn r) (inst_arn r) 0) :: evs)
     ∧ stop_instances c (r :: rs) st =
         ((inst_id r, STATE_STOPPED) :: (stop_instances c rs st').1,
          (stop_instances c rs st').2)
     ∧ ∀ tr a rest ex,
         trace st' = tr ++ Call a :: rest → length (trace st) < length tr →
         c tr a = Some ex →
         rest = [Log (WARN_TAGGING_STOPPED (inst_id r) ex)])
  ∧ (∀ s n,
       inst_tags r !! LAST_DESIRED_COUNT = Some s → py_int s = inr n →
       c (trace st) (update_service (inst_cluster_arn r) (inst_arn r) n) = None →
       ∃ st',
         start_one c r st = (inr (inst_id r, STATE_RUNNING), st')
         ∧ (∃ evs, trace st' =
                   trace st ++ Call (update_service (inst_cluster_arn r) (inst_arn r) n) :: evs)
         ∧ start_instances c (r :: rs) st =
             ((inst_id r, STATE_RUNNING) :: (start_instances c rs st').1,
              (start_instances c rs st').2)
         ∧ ∀ tr a rest ex,
             trace st' = tr ++ Call a :: rest → length (trace st) < length tr →
             c tr a = Some ex →
             rest = [Log (WARN_TAGGING_STARTED (inst_id r) ex)]).
Proof.
  intros Hwf. split.
  - intros Hc. eexists. split; [by apply stop_one_run|]. cbn [trace]. split_and!.
    + rewrite <- !app_assoc. by eexists.
    + unfold stop_instances. simpl. rewrite stop_one_run by done.
      by destruct (for_yield _ _ rs _).
    + intros tr a rest ex Heq Hlen Hex.
      eapply raise_after_resize; [reflexivity|exact Heq|exact Hlen|exact Hex].
  - intros s n Hs Hn Hc. eexists. split; [by eapply start_one_run|]. cbn [trace].
    split_and!.
    + rewrite <- !app_assoc. by eexists.
    + unfold start_instances. simpl. rewrite (start_one_run c r st s n) by done.
      by destruct (for_yield _ _ rs _).
    + intros tr a rest ex Heq Hlen Hex.
      eapply raise_after_resize; [reflexivity|exact Heq|exact Hlen|exact Hex].
Qed.

Lemma tagging_failures_not_fatal_witness :
  (stop_instances no_tagging_client [web; api_service] example_state).1
    = [(py "web", STATE_STOPPED); (py "api", STATE_STOPPED)]
  ∧ (start_instances no_tagging_client [web; api_service] example_state).1
    = [(py "web", STATE_RUNNING); (py "api", STATE_RUNNING)].
Proof.
  destruct (tagging_failures_not_fatal no_tagging_client web [api_service]
              example_state example_config_well_formed) as [Hstop Hstart].
  split.
  - destruct (Hstop eq_refl) as (st' & H1 & _ & H3 & _).
    rewrite H3. cbn [fst]. f_equal.
    replace st' with (stop_one no_tagging_client web example_state).2
      by (by rewrite H1).
    vm_compute. reflexivity.
  - destruct (Hstart (py "4") 4%Z eq_refl eq_refl eq_refl) as (st' & H1 & _ & H3 & _).
    rewrite H3. cbn [fst]. f_equal.
    replace st' with (start_one no_tagging_client web example_state).2
      by (by rewrite H1).
    vm_compute. reflexivity.
Defined.

(** ** Capture and restore of the desired count *)

Lemma start_one_trace c r st s n :
  inst_tags r !! LAST_DESIRED_COUNT = Some s →
  py_int s = inr n →
  ∃ evs, trace (start_one c r st).2
         = trace st ++ Call (update_service (inst_cluster_arn r) (inst_arn r) n) :: evs.
Proof.
  intros Hs Hn. unfold start_one.
  rewrite M_bind_run. unfold lift at 1. rewrite Hs, Hn.
  rewrite M_bind_run. unfold call at 1.
  destruct (c (trace st) _) as [ex|]; [by eexists|].
  rewrite M_bind_run.
  set (st1 := {| config := config st; trace := trace st ++ [_] |}).
  destruct (tag_started_state c r st1) as [evs Hevs].
  destruct (_tag_started_instances c r st1) as [[ex|[]] st2]; simpl in *;
    rewrite Hevs; cbn [trace]; rewrite <- app_assoc; by eexists.
Qed.

(** C4. With a client that answers and a configuration of tag records,
    stopping a resource whose desired count is [n] resizes it to 0 and
    applies a tag set holding the tag [ScheduledLastDesiredCount] with the
    decimal text of [n]; starting any resource that carries that tag
    value, with any client and whatever else the resource says, first
    resizes it to [n], the integer read back from the text. *)
Theorem capacity_round_trip c r st n :
  well_formed (config st) →
  (∀ tr a, c tr a = None) →
  inst_desired_count r = n →
  ∃ st',
    stop_instances c [r] st = ([(inst_id r, STATE_STOPPED)], st')
    ∧ (∃ evs, trace st' =
              trace st ++ Call (update_service (inst_cluster_arn r) (inst_arn r) 0) :: evs)
    ∧ (∃ tags, Call (tag_resource (inst_arn r) tags) ∈ trace st'
               ∧ captured_tag n ∈ tags)
    ∧ captured_tag n !! py "key" = Some LAST_DESIRED_COUNT
    ∧ captured_tag n !! py "value" = Some (py_str n)
    ∧ py_int (py_str n) = inr n
    ∧ ∀ c' r' st2,
        inst_tags r' !! LAST_DESIRED_COUNT = captured_tag n !! py "value" →
        ∃ evs, trace (start_instances c' [r'] st2).2
               = trace st2
                 ++ Call (update_service (inst_cluster_arn r') (inst_arn r') n) :: evs.
Proof.
  intros Hwf Hc <-.
  assert (Hv : captured_tag (inst_desired_count r) !! py "value"
               = Some (py_str (inst_desired_count r))).
  { unfold captured_tag. rewrite lookup_insert_ne by done. by rewrite lookup_insert_eq. }
  eexists. split_and!.
  - unfold stop_instances. simpl. rewrite stop_one_run by done. reflexivity.
  - cbn [trace]. rewrite <- !app_assoc. by eexists.
  - cbn [trace]. exists (stop_tag_set (config st) r). split.
    + unfold tagging_events, attempt. rewrite !Hc.
      rewrite !elem_of_app. right.
      destruct (bool_decide _); simpl; rewrite ?elem_of_cons; tauto.
    + unfold stop_tag_set. rewrite elem_of_app. right. by left.
  - unfold captured_tag. by rewrite lookup_insert_eq.
  - exact Hv.
  - apply py_int_py_str.
  - intros c' r' st2 Htag. rewrite Hv in Htag.
    destruct (start_one_trace c' r' st2 _ _ Htag (py_int_py_str _)) as [evs Hevs].
    unfold start_instances. simpl.
    destruct (start_one c' r' st2) as [[ex|y] st3]; simpl in *;
      rewrite Hevs; [rewrite <- app_assoc|]; by eexists.
Qed.

Lemma capacity_round_trip_witness :
  ∃ st',
    stop_instances quiet_client [web] example_state = ([(py "web", STATE_STOPPED)], st')
    ∧ (∃ tags, Call (tag_resource (inst_arn web) tags) ∈ trace st'
               ∧ captured_tag 4 ∈ tags)
    ∧ captured_tag 4 !! py "value" = Some (py "4")
    ∧ ∃ evs, trace (start_instances quiet_client [web] st').2
             = trace st'
               ++ Call (update_service (inst_cluster_arn web) (inst_arn web) 4) :: evs.
Proof.
  destruct (capacity_round_trip quiet_client web example_state 4
              example_config_well_formed (λ _ _, eq_refl) eq_refl)
    as (st' & H1 & _ & H3 & _ & H5 & _ & H7).
  exists st'. split; [exact H1|]. split; [exact H3|]. split; [exact H5|].
  apply H7. reflexivity.
Defined.

(** ** The configuration after a tagging path *)

Lemma rename_Key_Value_changes t k v :
  t !! py "Key" = Some k → t !! py "Value" = Some v →
  rename_Key_Value t !! py "key" = Some k
  ∧ rename_Key_Value t !! py "value" = Some v
  ∧ rename_Key_Value t !! py "Key" = None
  ∧ rename_Key_Value t !! py "Value" = None
  ∧ rename_Key_Value t ≠ t.
Proof.
  intros Hk Hv. unfold rename_Key_Value. rewrite Hk, Hv.
  assert (H3 : (<[py "value":=v]> (delete (py "Value")
                 (<[py "key":=k]> (delete (py "Key") t)))) !! py "Key" = None).
  { rewrite lookup_insert_ne by done. rewrite lookup_delete_ne by done.
    rewrite lookup_insert_ne by done. by rewrite lookup_delete_eq. }
  split_and!.
  - rewrite lookup_insert_ne by done. rewrite lookup_delete_ne by done.
    by rewrite lookup_insert_eq.
  - by rewrite lookup_insert_eq.
  - exact H3.
  - rewrite lookup_insert_ne by done. by rewrite lookup_delete_eq.
  - intros Heq. rewrite Heq in H3. congruence.
Qed.

Lemma fmap_fixed {A} (f : A → A) (l : list A) x : f <$> l = l → x ∈ l → f x = x.
Proof.
  intros Hl Hx. apply list_elem_of_lookup in Hx as [i Hi].
  assert (H : (f <$> l) !! i = Some (f x)) by (by rewrite list_lookup_fmap, Hi).
  rewrite Hl, Hi in H. by injection H.
Qed.

(** C10. The stop path leaves in the configuration the started tags with
    every record that has [Key] and [Value] renamed to [key] and [value],
    and the stopped tags as they were; the start path does the same with
    the roles exchanged; this holds whatever the client does and whether or
    not the path raises. A renamed record differs from the original, so a
    configuration holding such a record in the list concerned is not left
    unchanged. *)
Theorem tagging_renames_configuration c r st :
  config (_tag_stopped_resource c r st).2 =
    {| tag_name := tag_name (config st);
       started_tags := rename_Key_Value <$> started_tags (config st);
       stopped_tags := stopped_tags (config st) |}
  ∧ config (_tag_started_instances c r st).2 =
    {| tag_name := tag_name (config st);
       started_tags := started_tags (config st);
       stopped_tags := rename_Key_Value <$> stopped_tags (config st) |}
  ∧ (∀ t k v,
       t !! py "Key" = Some k → t !! py "Value" = Some v →
       rename_Key_Value t !! py "key" = Some k
       ∧ rename_Key_Value t !! py "value" = Some v
       ∧ rename_Key_Value t !! py "Key" = None
       ∧ rename_Key_Value t !! py "Value" = None
       ∧ (t ∈ started_tags (config st) →
          config (_tag_stopped_resource c r st).2 ≠ config st)
       ∧ (t ∈ stopped_tags (config st) →
          config (_tag_started_instances c r st).2 ≠ config st)).
Proof.
  destruct (tag_stopped_state c r st) as [evs1 H1].
  destruct (tag_started_state c r st) as [evs2 H2].
  rewrite H1, H2. cbn [config]. split_and!; try done.
  intros t k v Hk Hv.
  destruct (rename_Key_Value_changes t k v Hk Hv) as (Ha & Hb & Hc & Hd & He).
  split_and!; try done.
  - intros Ht Heq. apply He. apply (fmap_fixed _ (started_tags (config st))); [|done].
    apply (f_equal started_tags) in Heq. exact Heq.
  - intros Ht Heq. apply He. apply (fmap_fixed _ (stopped_tags (config st))); [|done].
    apply (f_equal stopped_tags) in Heq. exact Heq.
Qed.

Lemma tagging_renames_configuration_witness :
  started_tags (config (_tag_stopped_resource quiet_client web example_state).2)
    = [key_value "StartedBy" "scheduler"; key_value "State" "running"]
  ∧ config (_tag_stopped_resource quiet_client web example_state).2 ≠ example_config.
Proof.
  destruct (tagging_renames_configuration quiet_client web example_state)
    as (H1 & _ & H3).
  split.
  - rewrite H1. vm_compute. reflexivity.
  - destruct (H3 (Key_Value "State" "running") (py "State") (py "running")
                eq_refl eq_refl) as (_ & _ & _ & _ & H & _).
    apply H. by_compute.
Defined.

(** ** Discovery *)

(** C1 fails on the code. With the untagged clusters [alpha] and [beta],
    discovery returns the service of [beta] alone: [web], tagged, and
    [batch], untagged, both of [alpha], are missing, since the loop over
    the untagged clusters assigns the services of each cluster over those
    of the one before. *)
Theorem untagged_clusters_keep_only_last :
  ∀ pages,
    discovered (get_schedulable_instances (two_clusters [] []) (py "Schedule") (S pages))
      = Some (inr [(service_arn_of "beta" "cache", true)]).
Proof. intros pages. vm_compute. reflexivity. Qed.

(** Where the first cluster carries the schedule tag, its services are
    added to what is there, and all three services are returned. *)
Lemma tagged_cluster_services_are_added :
  ∀ pages,
    discovered (get_schedulable_instances
                  (two_clusters [(py "Schedule", py "office-hours")] [])
                  (py "Schedule") (S pages))
      = Some (inr [ (service_arn_of "beta" "cache", true);
                    (service_arn_of "alpha" "web", false);
                    (service_arn_of "alpha" "batch", false) ]).
Proof. intros pages. vm_compute. reflexivity. Qed.


(** * Further properties *)

(** ** Refusal and acceptance of window strings *)

Lemma split_length sep (s : pystr) :
  length (split sep s) = S (length (filter (λ c, c = sep) s)).
Proof.
  induction s as [|c s IH]; [done|]. simpl.
  destruct (N.eqb_spec c sep) as [->|Hne].
  - rewrite filter_cons_True by done. simpl. by rewrite IH.
  - rewrite filter_cons_False by done.
    destruct (split sep s) as [|w ws]; simpl in *; [lia|done].
Qed.

Lemma split_one_inv sep (s b : pystr) : split sep s = [b] → s = b ∧ (sep ∉ b).
Proof.
  revert b. induction s as [|c s IH]; intros b; simpl.
  - intros [= <-]. split; [done|]. apply not_elem_of_nil.
  - destruct (N.eqb_spec c sep) as [->|Hne].
    + intros [= <- H]. pose proof (split_length sep s) as Hl. rewrite H in Hl. done.
    + destruct (split sep s) as [|w ws] eqn:Hs.
      * pose proof (split_length sep s) as Hl. rewrite Hs in Hl. done.
      * intros [= <- ->]. destruct (IH w eq_refl) as [-> Hw]. split; [done|].
        apply not_elem_of_cons. split; [congruence|done].
Qed.

Lemma split_two_inv sep (s a b : pystr) :
  split sep s = [a; b] → s = a ++ sep :: b ∧ (sep ∉ a) ∧ (sep ∉ b).
Proof.
  revert a. induction s as [|c s IH]; intros a; simpl; [done|].
  destruct (N.eqb_spec c sep) as [->|Hne].
  - intros [= <- H]. apply split_one_inv in H as [-> Hb].
    split_and!; [done|apply not_elem_of_nil|done].
  - destruct (split sep s) as [|w ws] eqn:Hs; [done|].
    intros [= <- ->]. destruct (IH w eq_refl) as (-> & Hw & Hb).
    split_and!; [done| |done]. apply not_elem_of_cons. split; [congruence|done].
Qed.

Lemma split1_two_inv sep (s a b : pystr) :
  split1 sep s = [a; b] → s = a ++ sep :: b ∧ (sep ∉ a).
Proof.
  revert a. induction s as [|c s IH]; intros a; simpl; [done|].
  destruct (N.eqb_spec c sep) as [->|Hne].
  - intros [= <- <-]. split; [done|apply not_elem_of_nil].
  - destruct (split1 sep s) as [|w ws] eqn:Hs; [done|].
    intros [= <- ->]. destruct (IH w eq_refl) as (-> & Hw).
    split; [done|]. apply not_elem_of_cons. split; [congruence|done].
Qed.

Lemma unpack2_inr {A} (xs : list A) a b : unpack2 xs = inr (a, b) → xs = [a; b].
Proof. destruct xs as [|x [|y [|z xs]]]; simpl; congruence. Qed.

Lemma unpack2_inl {A} (xs : list A) e : unpack2 xs = inl e → ∃ msg, e = ValueError msg.
Proof. destruct xs as [|x [|y [|z xs]]]; simpl; intros [= <-]; by eexists. Qed.

Lemma unpack2_length {A} (xs : list A) :
  length xs ≠ 2 → ∃ msg, unpack2 xs = inl (ValueError msg).
Proof. destruct xs as [|x [|y [|z xs]]]; simpl; intros H; try done; by eexists. Qed.

Lemma suffixed_names_differ (name infix sd ed : pystr) :
  sd ≠ ed → name ++ infix ++ sd ≠ name ++ infix ++ ed.
Proof. intros Hne Heq. by do 2 apply app_inv_head in Heq. Qed.

Section WindowRefusal.

Variable weekdays_build : pystr → result (gset nat).
Variable get_time_from_string : pystr → option time.

(** X1. A string that does not hold exactly one dash is refused with a
    [ValueError], before the weekday builder or the time parser is
    consulted. *)
Theorem window_without_single_dash_is_refused (period_str : pystr) :
  length (filter (λ c, c = chr_dash) period_str) ≠ 1 →
  ∃ msg, build_schedule_from_maintenance_window weekdays_build get_time_from_string
    period_str = inl (ValueError msg).
Proof.
  intros Hn. unfold build_schedule_from_maintenance_window.
  destruct (unpack2_length (split chr_dash period_str)) as [msg ->].
  - rewrite split_length. lia.
  - by exists msg.
Qed.

(** X2. The builder returns a schedule exactly for the strings
    [day:rest-day:rest] with one dash, a colon in each half and weekday
    tokens the weekday builder accepts, the stop token being consulted
    only when it differs from the start token; what follows the first
    colon of a half is never checked. *)
Theorem window_accepted_iff (period_str : pystr) :
  (∃ schedule, build_schedule_from_maintenance_window weekdays_build get_time_from_string
    period_str = inr schedule) ↔
  ∃ sd st ed et,
    period_str = window_string sd st ed et
    ∧ window_tokens sd st ed et
    ∧ (∃ w, weekdays_build sd = inr w)
    ∧ (sd ≠ ed → ∃ w, weekdays_build ed = inr w).
Proof.
  split.
  - intros [schedule H]. unfold build_schedule_from_maintenance_window in H.
    destruct (unpack2 (split chr_dash period_str)) as [?|[a b]] eqn:H1; [done|].
    simpl in H.
    destruct (unpack2 (split1 chr_colon a)) as [?|[sd st]] eqn:H2; [done|].
    simpl in H.
    destruct (unpack2 (split1 chr_colon b)) as [?|[ed et]] eqn:H3; [done|].
    simpl in H.
    apply unpack2_inr, split_two_inv in H1 as (-> & Ha & Hb).
    apply unpack2_inr, split1_two_inv in H2 as (-> & Hsd).
    apply unpack2_inr, split1_two_inv in H3 as (-> & Hed).
    rewrite !not_elem_of_app, !not_elem_of_cons in Ha, Hb.
    exists sd, st, ed, et. split_and!.
    + unfold window_string. by rewrite <- !app_assoc.
    + unfold window_tokens. tauto.
    + destruct (weekdays_build sd) as [?|w]; [done|]. by exists w.
    + intros Hne. destruct (weekdays_build sd) as [?|w]; [done|]. simpl in H.
      rewrite decide_False in H by done.
      destruct (weekdays_build ed) as [?|w2]; [done|]. by exists w2.
  - intros (sd & st & ed & et & -> & Hw & [w1 H1] & H2).
    destruct (window_string_split _ _ _ _ Hw) as (E1 & E2 & E3).
    unfold build_schedule_from_maintenance_window.
    rewrite E1. simpl in *. rewrite E2. simpl. rewrite E3. simpl.
    rewrite H1. simpl. destruct (decide (sd = ed)) as [_|Hne]; simpl.
    + by eexists.
    + destruct (H2 Hne) as [w2 ->]. simpl. by eexists.
Qed.

(** X3. A schedule the builder returns has one or two periods, whose
    names are different from each other. *)
Theorem window_periods_are_named_apart (period_str : pystr) schedule :
  build_schedule_from_maintenance_window weekdays_build get_time_from_string
    period_str = inr schedule →
  (length (periods schedule) = 1 ∨ length (periods schedule) = 2)
  ∧ NoDup ((λ e, rp_name (period e)) <$> periods schedule).
Proof.
  unfold build_schedule_from_maintenance_window.
  destruct (unpack2 (split chr_dash period_str)) as [?|[a b]]; [done|]; cbn -[py MAINTENANCE_PERIOD_NAME].
  destruct (unpack2 (split1 chr_colon a)) as [?|[sd st]]; [done|]; cbn -[py MAINTENANCE_PERIOD_NAME].
  destruct (unpack2 (split1 chr_colon b)) as [?|[ed et]]; [done|]; cbn -[py MAINTENANCE_PERIOD_NAME].
  destruct (weekdays_build sd) as [?|w1]; [done|]; cbn -[py MAINTENANCE_PERIOD_NAME].
  destruct (decide (sd = ed)) as [_|Hne]; cbn -[py MAINTENANCE_PERIOD_NAME].
  - intros [= <-]. cbn -[py MAINTENANCE_PERIOD_NAME]. split; [by left|]. apply NoDup_singleton.
  - destruct (weekdays_build ed) as [?|w2]; [done|]; cbn -[py MAINTENANCE_PERIOD_NAME].
    intros [= <-]. cbn -[py MAINTENANCE_PERIOD_NAME]. split; [by right|].
    apply NoDup_cons. split; [|apply NoDup_singleton].
    rewrite list_elem_of_singleton. intros Heq.
    exact (suffixed_names_differ MAINTENANCE_PERIOD_NAME (py "-") sd ed Hne Heq).
Qed.

End WindowRefusal.

Lemma window_without_single_dash_is_refused_witness :
  ∃ msg,
    build_schedule_from_maintenance_window weekdays_build_model
      get_time_from_string_model (py "Mon:05:00-06:00-Tue:01:00")
    = inl (ValueError msg).
Proof.
  apply (window_without_single_dash_is_refused weekdays_build_model
           get_time_from_string_model (py "Mon:05:00-06:00-Tue:01:00")).
  by_compute.
Defined.

Lemma window_periods_are_named_apart_witness :
  ∃ schedule,
    build_schedule_from_maintenance_window weekdays_build_model
      get_time_from_string_model (py "Sat:23:00-Sun:02:00") = inr schedule
    ∧ length (periods schedule) = 2
    ∧ NoDup ((λ e, rp_name (period e)) <$> periods schedule).
Proof.
  destruct (build_schedule_from_maintenance_window weekdays_build_model
              get_time_from_string_model (py "Sat:23:00-Sun:02:00"))
    as [e|schedule] eqn:Hb; [by vm_compute in Hb|].
  exists schedule. split; [done|].
  destruct (window_periods_are_named_apart weekdays_build_model
              get_time_from_string_model _ schedule Hb) as [Hlen Hnd].
  split; [|exact Hnd].
  vm_compute in Hb. injection Hb as <-. reflexivity.
Defined.

(** ** What validation keeps *)

Lemma clean_value_dom t : dom (clean_value t) = dom t.
Proof.
  unfold clean_value. destruct (t !! py "value") as [v|] eqn:Hv; [|done].
  rewrite dom_insert_L. apply subseteq_union_1_L, singleton_subseteq_l.
  by eapply elem_of_dom_2.
Qed.

(** X4. Validation returns as many records as it was given, in the same
    order; each has the fields of the original, every field but [value]
    unchanged, and a [value] of the same length as the original one. *)
Theorem validation_keeps_shape (tags : list Tag) :
  length (validate_ecs_tag_values tags).1 = length tags
  ∧ ∀ i t, tags !! i = Some t →
      ∃ r, (validate_ecs_tag_values tags).1 !! i = Some r
           ∧ dom r = dom t
           ∧ (∀ k, k ≠ py "value" → r !! k = t !! k)
           ∧ (length <$> (r !! py "value")) = (length <$> (t !! py "value")).
Proof.
  rewrite validate_ecs_tag_values_eq. cbn [fst]. split; [apply length_fmap|].
  intros i t Ht. exists (clean_value t). split_and!.
  - by rewrite list_lookup_fmap, Ht.
  - apply clean_value_dom.
  - intros k Hk. by apply clean_value_lookup_ne.
  - rewrite clean_value_lookup. destruct (t !! py "value") as [v|]; simpl; [|done].
    by rewrite length_fmap.
Qed.

Lemma validation_keeps_shape_witness :
  ∃ r, (validate_ecs_tag_values [key_value "Name" "a#b"; key_value "Team" "ops"]).1 !! 0
       = Some r
       ∧ dom r = dom (key_value "Name" "a#b")
       ∧ (length <$> (r !! py "value")) = Some 3.
Proof.
  destruct (validation_keeps_shape [key_value "Name" "a#b"; key_value "Team" "ops"])
    as [_ H].
  destruct (H 0 (key_value "Name" "a#b") eq_refl) as (r & H1 & H2 & _ & H4).
  exists r. split; [exact H1|]. split; [exact H2|]. exact H4.
Defined.

Lemma value_warning_nil_iff t : value_warning t = [] ↔ clean_value t = t.
Proof.
  unfold value_warning, clean_value.
  destruct (t !! py "value") as [v|] eqn:Hv; [|done].
  case_decide as Hc.
  - split; [|done]. intros _. rewrite Hc. by apply insert_id.
  - split; [done|]. intros Heq. exfalso. apply Hc.
    assert (H : (<[py "value":=clean_char <$> v]> t) !! py "value" = Some v)
      by (by rewrite Heq).
    rewrite lookup_insert_eq in H. by injection H.
Qed.

(** X5. Validation logs no warning exactly when it returns the list it
    was given, and never more warnings than there are records. *)
Theorem validation_silent_iff_unchanged (tags : list Tag) :
  ((validate_ecs_tag_values tags).2 = [] ↔ (validate_ecs_tag_values tags).1 = tags)
  ∧ length (validate_ecs_tag_values tags).2 ≤ length tags.
Proof.
  rewrite validate_ecs_tag_values_eq. cbn [fst snd]. split.
  - induction tags as [|t tags IH]; [done|].
    rewrite fmap_cons, bind_cons. split.
    + intros [H1 H2]%app_eq_nil. f_equal; [by apply value_warning_nil_iff|by apply IH].
    + intros [= H1 H2].
      by rewrite (proj2 (value_warning_nil_iff t) H1), (proj2 IH H2).
  - induction tags as [|t tags IH]; [done|].
    rewrite bind_cons, length_app. simpl.
    assert (length (value_warning t) ≤ 1); [|lia].
    unfold value_warning. destruct (t !! py "value"); [case_decide|]; simpl; lia.
Qed.

(** ** The renaming of tag records *)

Lemma rename_Key_Value_idemp t :
  rename_Key_Value (rename_Key_Value t) = rename_Key_Value t.
Proof.
  destruct (t !! py "Key") as [k|] eqn:Hk; [destruct (t !! py "Value") as [v|] eqn:Hv|].
  - destruct (rename_Key_Value_changes t k v Hk Hv) as (_ & _ & Hn & _).
    unfold rename_Key_Value at 1. by rewrite Hn.
  - unfold rename_Key_Value at 2. rewrite Hk, Hv.
    unfold rename_Key_Value. by rewrite Hk, Hv.
  - unfold rename_Key_Value at 2. rewrite Hk.
    unfold rename_Key_Value. by rewrite Hk.
Qed.

Lemma rename_Key_Value_other t k :
  k ∉ [py "Key"; py "Value"; py "key"; py "value"] →
  rename_Key_Value t !! k = t !! k.
Proof.
  rewrite !not_elem_of_cons. intros (H1 & H2 & H3 & H4 & _).
  unfold rename_Key_Value.
  destruct (t !! py "Key"), (t !! py "Value"); try done.
  rewrite lookup_insert_ne by done. rewrite lookup_delete_ne by done.
  rewrite lookup_insert_ne by done. by rewrite lookup_delete_ne.
Qed.

Lemma tag_record_rename t : tag_record t → tag_record (rename_Key_Value t).
Proof. intros Ht. right. by apply tag_record_key. Qed.

Lemma rename_key_tag_record t :
  is_Some (rename_Key_Value t !! py "key") → tag_record t.
Proof.
  rewrite rename_Key_Value_key. unfold tag_record.
  destruct (t !! py "Key"), (t !! py "Value"); eauto.
Qed.

Lemma clean_tag_record t : tag_record (clean_value t) → tag_record t.
Proof. unfold tag_record. by rewrite !clean_value_lookup_ne by done. Qed.

Lemma fmap_rename_idemp (ts : list Tag) :
  rename_Key_Value <$> (rename_Key_Value <$> ts) = rename_Key_Value <$> ts.
Proof.
  rewrite <- list_fmap_compose. apply list_fmap_ext. intros _ t _.
  apply rename_Key_Value_idemp.
Qed.

Lemma tagging_paths_config c r st :
  config (_tag_stopped_resource c r st).2 =
    {| tag_name := tag_name (config st);
       started_tags := rename_Key_Value <$> started_tags (config st);
       stopped_tags := stopped_tags (config st) |}
  ∧ config (_tag_started_instances c r st).2 =
    {| tag_name := tag_name (config st);
       started_tags := started_tags (config st);
       stopped_tags := rename_Key_Value <$> stopped_tags (config st) |}.
Proof.
  destruct (tag_stopped_state c r st) as [e1 H1].
  destruct (tag_started_state c r st) as [e2 H2].
  by rewrite H1, H2.
Qed.

(** X6. Renaming a record again changes nothing, so a tagging path that
    runs a second time leaves the configuration as the first run left it.
    Once the stop path and the start path have each run, in either
    order, the configuration holds both lists renamed, and from any
    state whose configuration holds both lists renamed no tagging path
    changes the configuration any more. Fields other than [Key],
    [Value], [key] and [value] are never touched by the renaming. *)
Theorem renaming_settles c1 c2 r1 r2 st :
  let settled :=
    {| tag_name := tag_name (config st);
       started_tags := rename_Key_Value <$> started_tags (config st);
       stopped_tags := rename_Key_Value <$> stopped_tags (config st) |} in
  config (_tag_stopped_resource c2 r2 (_tag_stopped_resource c1 r1 st).2).2
    = config (_tag_stopped_resource c1 r1 st).2
  ∧ config (_tag_started_instances c2 r2 (_tag_started_instances c1 r1 st).2).2
    = config (_tag_started_instances c1 r1 st).2
  ∧ config (_tag_started_instances c2 r2 (_tag_stopped_resource c1 r1 st).2).2
    = settled
  ∧ config (_tag_stopped_resource c2 r2 (_tag_started_instances c1 r1 st).2).2
    = settled
  ∧ (∀ c r st2, config st2 = settled →
       config (_tag_stopped_resource c r st2).2 = settled
       ∧ config (_tag_started_instances c r st2).2 = settled)
  ∧ (∀ t k, k ∉ [py "Key"; py "Value"; py "key"; py "value"] →
            rename_Key_Value t !! k = t !! k).
Proof.
  cbn zeta. split_and!.
  - rewrite !(proj1 (tagging_paths_config _ _ _)).
    cbn [config tag_name started_tags stopped_tags].
    by rewrite fmap_rename_idemp.
  - rewrite !(proj2 (tagging_paths_config _ _ _)).
    cbn [config tag_name started_tags stopped_tags].
    by rewrite fmap_rename_idemp.
  - rewrite (proj2 (tagging_paths_config _ _ _)), (proj1 (tagging_paths_config _ _ _)).
    done.
  - rewrite (proj1 (tagging_paths_config _ _ _)), (proj2 (tagging_paths_config _ _ _)).
    done.
  - intros c r st2 Hst2.
    rewrite (proj1 (tagging_paths_config _ _ _)), (proj2 (tagging_paths_config _ _ _)).
    rewrite Hst2. cbn [config tag_name started_tags stopped_tags].
    by rewrite !fmap_rename_idemp.
  - intros t k. apply rename_Key_Value_other.
Qed.

Lemma renaming_settles_witness :
  let st2 := (_tag_stopped_resource quiet_client web
                (_tag_started_instances no_tagging_client web example_state).2).2 in
  config (_tag_started_instances quiet_client api_service st2).2
    = {| tag_name := py "Schedule";
         started_tags := [key_value "StartedBy" "scheduler"; key_value "State" "running"];
         stopped_tags := [key_value "State" "stopped"] |}.
Proof.
  intros st2.
  destruct (renaming_settles no_tagging_client quiet_client web web example_state)
    as (_ & _ & _ & H4 & H5 & _).
  destruct (H5 quiet_client api_service st2 H4) as [_ H].
  rewrite H. vm_compute. reflexivity.
Defined.


(** ** The tag delta of a start *)

(** X7. For a configuration of tag records, when the removal call
    returns, the start path makes these calls and no other: a removal of
    the keys of the stopped set that are not keys of the start tag set, if
    there is such a key; then the application of the start tag set, the
    validated started set, unless that set is empty. With no started tags
    configured nothing is applied. *)
Theorem start_transition_tag_delta c r st :
  well_formed (config st) →
  let cfg := config st in
  let start_tags := start_tag_set cfg in
  let removal := start_removal_keys cfg in
  (∀ tr, c tr (untag_resource (inst_arn r) removal) = None) →
  ∃ st',
    _tag_started_instances c r st = (inr (), st')
    ∧ calls_of (drop (length (trace st)) (trace st'))
      = (if decide (removal = []) then []
         else [untag_resource (inst_arn r) removal])
        ++ (if decide (started_tags cfg = []) then []
            else [tag_resource (inst_arn r) start_tags])
    ∧ length start_tags = length (started_tags cfg)
    ∧ (∀ k, k ∈ removal ↔
            k ∈ key_of <$> (rename_Key_Value <$> stopped_tags cfg)
            ∧ k ∉ key_of <$> start_tags).
Proof.
  intros Hwf. cbn zeta. intros Hc.
  assert (Hlen : length (start_tag_set (config st)) = length (started_tags (config st))).
  { unfold start_tag_set. rewrite validate_ecs_tag_values_eq. cbn [fst].
    by rewrite !length_fmap. }
  eexists. split; [by apply tag_started_run|]. cbn [trace].
  split_and!.
  - rewrite <- app_assoc, drop_app_length, calls_of_app, calls_of_logs. simpl.
    unfold tagging_events, attempt. rewrite Hlen.
    revert Hc. destruct (start_removal_keys (config st)) as [|k ks]; intros Hc.
    + simpl. destruct (started_tags (config st)) as [|t ts]; simpl; [done|].
      by destruct (c _ _).
    + rewrite (bool_decide_eq_true_2 _) by done. rewrite Hc.
      simpl. destruct (started_tags (config st)) as [|t ts]; simpl; [done|].
      by destruct (c _ _).
  - exact Hlen.
  - intros k. unfold start_removal_keys. by rewrite list_elem_of_filter, (comm and).
Qed.

Lemma start_transition_tag_delta_witness :
  ∃ st',
    _tag_started_instances quiet_client web example_state = (inr (), st')
    ∧ calls_of (trace st')
      = [ tag_resource (inst_arn web)
            [key_value "StartedBy" "scheduler"; key_value "State" "running"] ].
Proof.
  destruct (start_transition_tag_delta quiet_client web example_state
              example_config_well_formed (λ _, eq_refl))
    as (st' & H1 & H2 & _).
  exists st'. split; [exact H1|].
  vm_compute in H2. vm_compute. exact H2.
Defined.

(** ** The captured count on the resource *)

Lemma tagging_events_calls c pre b1 l1 a1 b2 l2 a2 w a :
  a ∈ calls_of (tagging_events c pre b1 l1 a1 b2 l2 a2 w) →
  (b1 = true ∧ a = a1) ∨ (b2 = true ∧ a = a2).
Proof.
  unfold tagging_events, attempt.
  destruct b1, b2; simpl;
    repeat match goal with
           | |- context [c ?t ?x] => destruct (c t x); simpl
           end;
    rewrite ?elem_of_cons, ?elem_of_nil; intuition congruence.
Qed.

(** X8. For a configuration of tag records, no removal call of the stop
    path names [ScheduledLastDesiredCount], whatever the started tags
    hold; and a removal call of the start path names it only if the
    configured stopped tags do. With a configuration that does not
    mention the key, the captured count stays on the resource. *)
Theorem captured_count_is_not_removed c r st :
  well_formed (config st) →
  (∀ arn ks,
     untag_resource arn ks
       ∈ calls_of (drop (length (trace st)) (trace (_tag_stopped_resource c r st).2)) →
     LAST_DESIRED_COUNT ∉ ks)
  ∧ (∀ arn ks,
     untag_resource arn ks
       ∈ calls_of (drop (length (trace st)) (trace (_tag_started_instances c r st).2)) →
     LAST_DESIRED_COUNT ∈ ks →
     LAST_DESIRED_COUNT ∈ key_of <$> (rename_Key_Value <$> stopped_tags (config st))).
Proof.
  intros Hwf. split.
  - intros arn ks. rewrite tag_stopped_run by done. cbn [snd trace].
    rewrite <- app_assoc, drop_app_length, calls_of_app, calls_of_logs. simpl.
    intros [[_ [= _ ->]]|[_ [=]]]%tagging_events_calls.
    unfold stop_removal_keys. rewrite list_elem_of_filter. intros [Hn _]. apply Hn.
    unfold stop_tag_set. rewrite fmap_app, elem_of_app. right.
    apply list_elem_of_singleton. unfold key_of, captured_tag.
    by rewrite lookup_insert_eq.
  - intros arn ks. rewrite tag_started_run by done. cbn [snd trace].
    rewrite <- app_assoc, drop_app_length, calls_of_app, calls_of_logs. simpl.
    intros [[_ [= _ ->]]|[_ [=]]]%tagging_events_calls.
    unfold start_removal_keys. rewrite list_elem_of_filter. by intros [_ ?].
Qed.

Lemma captured_count_is_not_removed_witness :
  let st := {| config := {| tag_name := py "Schedule";
                            started_tags :=
                              [Key_Value "ScheduledLastDesiredCount" "0";
                               Key_Value "StartedBy" "scheduler"];
                            stopped_tags := [] |};
               trace := [] |} in
  Forall (λ a, match a with
               | untag_resource _ ks => LAST_DESIRED_COUNT ∉ ks
               | _ => True
               end)
         (calls_of (trace (_tag_stopped_resource quiet_client web st).2)).
Proof.
  intros st.
  assert (Hwf : well_formed (config st))
    by (unfold well_formed, tag_record; by_compute).
  destruct (captured_count_is_not_removed quiet_client web st Hwf) as [H _].
  apply Forall_forall. intros [cl sv n|arn ks|arn ts] Ha; [done| |done].
  by apply (H arn ks).
Defined.

(** ** Records without a key *)

Lemma keys_of_inl ts e : keys_of ts = inl e → e = KeyError (py "key").
Proof.
  induction ts as [|t ts IH]; simpl; [done|].
  destruct (t !! py "key"); [|by intros [= <-]].
  destruct (keys_of ts) as [e'|ks]; simpl; [|done].
  intros [= <-]. by apply IH.
Qed.

Lemma keys_of_inr ts ks :
  keys_of ts = inr ks → Forall (λ t, is_Some (t !! py "key")) ts.
Proof.
  revert ks. induction ts as [|t ts IH]; intros ks; simpl; [by constructor|].
  destruct (t !! py "key") as [k|] eqn:Hk; [|done].
  destruct (keys_of ts) as [e'|ks']; simpl; [done|].
  intros _. constructor; [by rewrite Hk|by eapply IH].
Qed.

Lemma keys_not_in_inl names ts e :
  keys_not_in names ts = inl e → e = KeyError (py "key").
Proof.
  unfold keys_not_in. destruct (keys_of ts) as [e'|ks] eqn:Hk; simpl; [|done].
  intros [= <-]. by eapply keys_of_inl.
Qed.

Lemma keys_not_in_inr names ts ks :
  keys_not_in names ts = inr ks → Forall (λ t, is_Some (t !! py "key")) ts.
Proof.
  unfold keys_not_in. destruct (keys_of ts) as [e'|ks'] eqn:Hk; simpl; [done|].
  intros _. by eapply keys_of_inr.
Qed.

Lemma renamed_keys_tag_records ts :
  Forall (λ t, is_Some (t !! py "key")) (rename_Key_Value <$> ts) →
  Forall tag_record ts.
Proof.
  rewrite Forall_fmap. intros H. eapply Forall_impl; [exact H|].
  intros t. apply rename_key_tag_record.
Qed.

Lemma validated_keys_tag_records ts :
  Forall (λ t, is_Some (t !! py "key")) (rename_Key_Value <$> (clean_value <$> ts)) →
  Forall tag_record ts.
Proof.
  rewrite !Forall_fmap. intros H. eapply Forall_impl; [exact H|].
  intros t Ht. by apply clean_tag_record, rename_key_tag_record.
Qed.

Lemma tag_stopped_malformed c r st :
  ¬ well_formed (config st) →
  _tag_stopped_resource c r st =
    (inl (KeyError (py "key")),
     {| config := {| tag_name := tag_name (config st);
                     started_tags := rename_Key_Value <$> started_tags (config st);
                     stopped_tags := stopped_tags (config st) |};
        trace := trace st
                 ++ (Log <$> (validate_ecs_tag_values (stopped_tags (config st))).2) |}).
Proof.
  intros Hn. unfold _tag_stopped_resource.
  rewrite M_bind_run. unfold get_config at 1. cbn beta iota.
  rewrite M_bind_run, validate_run. cbn beta iota.
  rewrite rename_if_nonempty.
  rewrite M_bind_run. unfold set_started_tags at 1. cbn beta iota.
  rewrite M_bind_run. unfold lift at 1. cbn beta iota.
  rewrite validate_ecs_tag_values_eq. cbn [snd config trace tag_name stopped_tags].
  destruct (keys_of _) as [e|names] eqn:H1.
  { by rewrite (keys_of_inl _ _ H1). }
  apply keys_of_inr, Forall_app in H1 as [H1 _].
  apply validated_keys_tag_records in H1.
  rewrite M_bind_run. unfold lift at 1. cbn beta iota.
  destruct (keys_not_in _ _) as [e|keys] eqn:H2.
  { by rewrite (keys_not_in_inl _ _ _ H2). }
  apply keys_not_in_inr, renamed_keys_tag_records in H2.
  destruct Hn. by split.
Qed.

Lemma tag_started_malformed c r st :
  ¬ well_formed (config st) →
  _tag_started_instances c r st =
    (inl (KeyError (py "key")),
     {| config := {| tag_name := tag_name (config st);
                     started_tags := started_tags (config st);
                     stopped_tags := rename_Key_Value <$> stopped_tags (config st) |};
        trace := trace st
                 ++ (Log <$> (validate_ecs_tag_values (started_tags (config st))).2) |}).
Proof.
  intros Hn. unfold _tag_started_instances.
  rewrite M_bind_run. unfold get_config at 1. cbn beta iota.
  rewrite M_bind_run, validate_run. cbn beta iota.
  rewrite rename_if_nonempty.
  rewrite M_bind_run. unfold set_stopped_tags at 1. cbn beta iota.
  rewrite M_bind_run. unfold lift at 1. cbn beta iota.
  rewrite validate_ecs_tag_values_eq. cbn [snd config trace tag_name started_tags].
  destruct (keys_of _) as [e|names] eqn:H1.
  { by rewrite (keys_of_inl _ _ H1). }
  apply keys_of_inr, validated_keys_tag_records in H1.
  rewrite M_bind_run. unfold lift at 1. cbn beta iota.
  destruct (keys_not_in _ _) as [e|keys] eqn:H2.
  { by rewrite (keys_not_in_inl _ _ _ H2). }
  apply keys_not_in_inr, renamed_keys_tag_records in H2.
  destruct Hn. by split.
Qed.

(** X9. When a configured tag list holds a record that has neither
    [Key] and [Value] nor [key], a resource whose resize returned is
    resized and then given up: no tagging call is made, the [KeyError] is
    logged as the error of the resource, nothing is yielded for it and the
    rest of the batch is dropped. This holds for stop and for start. *)
Theorem record_without_key_aborts_after_resize c r rs st :
  ¬ well_formed (config st) →
  (c (trace st) (update_service (inst_cluster_arn r) (inst_arn r) 0) = None →
   ∃ st',
     stop_instances c (r :: rs) st = ([], st')
     ∧ calls_of (drop (length (trace st)) (trace st'))
       = [update_service (inst_cluster_arn r) (inst_arn r) 0]
     ∧ last (trace st')
       = Some (Log (ERR_STOPPING_INSTANCE (cluster_or_instance r) (inst_arn r)
                      (KeyError (py "key")))))
  ∧ (∀ s n,
       inst_tags r !! LAST_DESIRED_COUNT = Some s → py_int s = inr n →
       c (trace st) (update_service (inst_cluster_arn r) (inst_arn r) n) = None →
       ∃ st',
         start_instances c (r :: rs) st = ([], st')
         ∧ calls_of (drop (length (trace st)) (trace st'))
           = [update_service (inst_cluster_arn r) (inst_arn r) n]
         ∧ last (trace st')
           = Some (Log (ERR_STARTING_INSTANCE (cluster_or_instance r) (inst_arn r)
                          (KeyError (py "key"))))).
Proof.
  intros Hn. split.
  - intros Hc. eexists. split_and!.
    + unfold stop_instances. cbn [for_yield]. unfold stop_one.
      rewrite M_bind_run. unfold call at 1. rewrite Hc.
      rewrite M_bind_run.
      set (st1 := {| config := config st; trace := trace st ++ [_] |}).
      rewrite (tag_stopped_malformed c r st1) by done. reflexivity.
    + cbn [snd log emit trace config].
      rewrite <- !app_assoc, drop_app_length, !calls_of_app, calls_of_logs. done.
    + cbn [snd log emit trace config]. by rewrite last_snoc.
  - intros s n Hs Hi Hc. eexists. split_and!.
    + unfold start_instances. cbn [for_yield]. unfold start_one.
      rewrite M_bind_run. unfold lift at 1. rewrite Hs, Hi.
      rewrite M_bind_run. unfold call at 1. rewrite Hc.
      rewrite M_bind_run.
      set (st1 := {| config := config st; trace := trace st ++ [_] |}).
      rewrite (tag_started_malformed c r st1) by done. reflexivity.
    + cbn [snd log emit trace config].
      rewrite <- !app_assoc, drop_app_length, !calls_of_app, calls_of_logs. done.
    + cbn [snd log emit trace config]. by rewrite last_snoc.
Qed.

Lemma record_without_key_aborts_after_resize_witness :
  let st := {| config := {| tag_name := py "Schedule";
                            started_tags := [];
                            stopped_tags := [{[ py "Key" := py "State" ]}] |};
               trace := [] |} in
  ∃ st',
    stop_instances quiet_client [web; api_service] st = ([], st')
    ∧ calls_of (trace st')
      = [update_service (inst_cluster_arn web) (inst_arn web) 0].
Proof.
  intros st.
  assert (Hn : ¬ well_formed (config st)).
  { intros [_ H]. apply Forall_cons in H as [[[_ [v Hv]]|[k Hk]] _]; by vm_compute in *. }
  destruct (record_without_key_aborts_after_resize quiet_client web [api_service] st Hn)
    as [Hstop _].
  destruct (Hstop eq_refl) as (st' & H1 & H2 & _).
  exists st'. split; [exact H1|exact H2].
Defined.

(** ** A resize that fails and a count that cannot be read *)

(** X10. When the resize of a resource raises, nothing else is done for
    it: no tagging call is made, the configuration is left as it was, the
    exception is logged as the error of the resource, nothing is yielded
    and the rest of the batch is dropped. This holds for stop and for
    start. *)
Theorem refused_resize_changes_nothing c r rs st ex :
  (c (trace st) (update_service (inst_cluster_arn r) (inst_arn r) 0) = Some ex →
   stop_instances c (r :: rs) st =
     ([], {| config := config st;
             trace := trace st
                      ++ [Call (update_service (inst_cluster_arn r) (inst_arn r) 0);
                          Log (ERR_STOPPING_INSTANCE (cluster_or_instance r)
                                 (inst_arn r) ex)] |}))
  ∧ (∀ s n,
       inst_tags r !! LAST_DESIRED_COUNT = Some s → py_int s = inr n →
       c (trace st) (update_service (inst_cluster_arn r) (inst_arn r) n) = Some ex →
       start_instances c (r :: rs) st =
         ([], {| config := config st;
                 trace := trace st
                          ++ [Call (update_service (inst_cluster_arn r) (inst_arn r) n);
                              Log (ERR_STARTING_INSTANCE (cluster_or_instance r)
                                     (inst_arn r) ex)] |})).
Proof.
  split.
  - intros Hc. unfold stop_instances. cbn [for_yield]. unfold stop_one.
    rewrite M_bind_run. unfold call at 1. rewrite Hc.
    cbn [snd log emit trace config]. by rewrite <- app_assoc.
  - intros s n Hs Hi Hc. unfold start_instances. cbn [for_yield]. unfold start_one.
    rewrite M_bind_run. unfold lift at 1. rewrite Hs, Hi.
    rewrite M_bind_run. unfold call at 1. rewrite Hc.
    cbn [snd log emit trace config]. by rewrite <- app_assoc.
Qed.

Lemma refused_resize_changes_nothing_witness :
  calls_of (trace (stop_instances (client_refusing (inst_arn web))
                     [web; api_service] example_state).2)
    = [update_service (inst_cluster_arn web) (inst_arn web) 0]
  ∧ config (stop_instances (client_refusing (inst_arn web))
              [web; api_service] example_state).2 = example_config.
Proof.
  destruct (refused_resize_changes_nothing (client_refusing (inst_arn web)) web
              [api_service] example_state
              (ClientError (py "ServiceNotFoundException"))) as [H _].
  rewrite H by (vm_compute; reflexivity). split; reflexivity.
Defined.

(** X11. A resource to start that has no [ScheduledLastDesiredCount] tag,
    or whose tag value is not an integer, ends the batch before any call
    is made: the [KeyError] or [ValueError] is logged as the error of the
    resource, nothing is yielded, and the configuration is left as it
    was. *)
Theorem start_without_readable_count_aborts c r rs st :
  (inst_tags r !! LAST_DESIRED_COUNT = None →
   start_instances c (r :: rs) st =
     ([], {| config := config st;
             trace := trace st
                      ++ [Log (ERR_STARTING_INSTANCE (cluster_or_instance r) (inst_arn r)
                                 (KeyError LAST_DESIRED_COUNT))] |}))
  ∧ (∀ s e,
       inst_tags r !! LAST_DESIRED_COUNT = Some s → py_int s = inl e →
       (∃ msg, e = ValueError msg)
       ∧ start_instances c (r :: rs) st =
           ([], {| config := config st;
                   trace := trace st
                            ++ [Log (ERR_STARTING_INSTANCE (cluster_or_instance r)
                                       (inst_arn r) e)] |})).
Proof.
  split.
  - intros Hs. unfold start_instances. cbn [for_yield]. unfold start_one.
    rewrite M_bind_run. unfold lift at 1. by rewrite Hs.
  - intros s e Hs Hi. split.
    + unfold py_int in Hi. repeat case_match; simplify_eq; by eexists.
    + unfold start_instances. cbn [for_yield]. unfold start_one.
      rewrite M_bind_run. unfold lift at 1. by rewrite Hs, Hi.
Qed.

Lemma start_without_readable_count_aborts_witness :
  let r := {| inst_id := py "web"; inst_arn := py "arn:web";
              inst_cluster_arn := py "arn:main"; inst_desired_count := 0;
              inst_tags := {[ py "Schedule" := py "office-hours" ]};
              inst_is_cluster := false |} in
  (start_instances quiet_client [r; api_service] example_state).1 = []
  ∧ calls_of (trace (start_instances quiet_client [r; api_service] example_state).2) = [].
Proof.
  intros r.
  destruct (start_without_readable_count_aborts quiet_client r [api_service]
              example_state) as [H _].
  rewrite H by reflexivity. split; reflexivity.
Defined.

(** ** Values that validation does not reach *)



(** ** How much a batch does *)






Section BatchCalls.

Context {Y : Type}.
Variable body : Instance → M Y.
Variable what : Instance → exn → log_record.
Variable bound : nat.
Hypothesis body_calls : ∀ r st,
  ∃ evs, trace (body r st).2 = trace st ++ evs ∧ length (calls_of evs) ≤ bound.


End BatchCalls.


(** ** A batch that goes through *)

Lemma well_formed_after_stop cfg :
  well_formed cfg →
  well_formed {| tag_name := tag_name cfg;
                 started_tags := rename_Key_Value <$> started_tags cfg;
                 stopped_tags := stopped_tags cfg |}.
Proof.
  intros [H1 H2]. split; [|done]. cbn [started_tags]. rewrite Forall_fmap.
  eapply Forall_impl; [exact H1|]. intros t. apply tag_record_rename.
Qed.

Lemma well_formed_after_start cfg :
  well_formed cfg →
  well_formed {| tag_name := tag_name cfg;
                 started_tags := started_tags cfg;
                 stopped_tags := rename_Key_Value <$> stopped_tags cfg |}.
Proof.
  intros [H1 H2]. split; [done|]. cbn [stopped_tags]. rewrite Forall_fmap.
  eapply Forall_impl; [exact H2|]. intros t. apply tag_record_rename.
Qed.

(** X14. With a configuration of tag records and a client whose resize
    never raises, every resource of a stop batch is reported as stopped,
    in input order, whatever happens to the tagging calls; the same holds
    for a start batch whose resources all carry an integer in their
    [ScheduledLastDesiredCount] tag, each being reported as running. *)
Theorem batch_goes_through c rs st :
  well_formed (config st) →
  (∀ tr cluster service n, c tr (update_service cluster service n) = None) →
  (stop_instances c rs st).1 = (λ r, (inst_id r, STATE_STOPPED)) <$> rs
  ∧ (Forall (λ r, ∃ s n, inst_tags r !! LAST_DESIRED_COUNT = Some s
                         ∧ py_int s = inr n) rs →
     (start_instances c rs st).1 = (λ r, (inst_id r, STATE_RUNNING)) <$> rs).
Proof.
  intros Hwf Hc. split.
  - revert st Hwf. induction rs as [|r rs IH]; intros st Hwf; [done|].
    unfold stop_instances in *. cbn [for_yield].
    rewrite stop_one_run by done.
    match goal with
    | |- context [for_yield ?b ?h rs ?s] =>
        specialize (IH s); destruct (for_yield b h rs s) as [ys st2]
    end.
    cbn [fst] in *. rewrite fmap_cons. f_equal. apply IH.
    by apply well_formed_after_stop.
  - intros Hrs. revert st Hwf.
    induction Hrs as [|r rs (s & n & Hs & Hn) _ IH]; intros st Hwf; [done|].
    unfold start_instances in *. cbn [for_yield].
    rewrite (start_one_run c r st s n) by done.
    match goal with
    | |- context [for_yield ?b ?h rs ?s] =>
        specialize (IH s); destruct (for_yield b h rs s) as [ys st2]
    end.
    cbn [fst] in *. rewrite fmap_cons. f_equal. apply IH.
    by apply well_formed_after_start.
Qed.

Lemma batch_goes_through_witness :
  (stop_instances no_tagging_client [web; api_service; jobs] example_state).1
    = [(py "web", STATE_STOPPED); (py "api", STATE_STOPPED); (py "jobs", STATE_STOPPED)]
  ∧ (start_instances no_tagging_client [web; api_service; jobs] example_state).1
    = [(py "web", STATE_RUNNING); (py "api", STATE_RUNNING); (py "jobs", STATE_RUNNING)].
Proof.
  destruct (batch_goes_through no_tagging_client [web; api_service; jobs] example_state
              example_config_well_formed (λ _ _ _ _, eq_refl)) as [H1 H2].
  split; [exact H1|]. apply H2.
  repeat constructor; eexists _, _; (split; [reflexivity|vm_compute; reflexivity]).
Defined.

(** ** Paginated calls *)

(** A paginated read that has returned under some bound on the number of
    pages returns the same list under every larger bound. *)
Lemma paginate_more_fuel {A} (fetch : option pystr → Page A) n m token l :
  paginate n fetch token = Some l → n ≤ m → paginate m fetch token = Some l.
Proof.
  revert m token l. induction n as [|n IH]; intros m token l; [done|].
  intros H Hm. destruct m as [|m]; [lia|]. simpl in *.
  destruct (NextToken (fetch token)) as [t|]; [|done].
  destruct (paginate n fetch (Some t)) as [rest|] eqn:Hn; [|done].
  rewrite (IH m (Some t) rest) by (done || lia). done.
Qed.

(** The loop body applied to the records in order, up to the first
    exception. *)
Lemma mapM_result_app {A B} (body : A → result B) l1 l2 :
  mapM body (l1 ++ l2)
  = match mapM body l1 with
    | inl ex => inl ex
    | inr out =>
        match mapM body l2 with
        | inl ex => inl ex
        | inr rest => inr (out ++ rest)
        end
    end.
Proof.
  induction l1 as [|x l1 IH]; simpl.
  - by destruct (mapM body l2).
  - destruct (body x) as [ex|y]; [done|]. simpl. rewrite IH.
    destruct (mapM body l1) as [ex|out]; [done|]. simpl.
    by destruct (mapM body l2).
Qed.

Lemma mapM_result_inr {A B} (body : A → result B) l :
  Forall (λ x, ∃ y, body x = inr y) l →
  ∃ out, mapM body l = inr out ∧ Forall2 (λ x y, body x = inr y) l out.
Proof.
  induction 1 as [|x l [y Hy] _ (out & Hout & IH)]; simpl.
  - exists []. by split.
  - exists (y :: out). rewrite Hy. simpl. rewrite Hout. simpl.
    split; [done|by constructor].
Qed.

Lemma mapM_result_inl {A B} (body : A → result B) l e :
  Forall (λ x, body x = inl e ∨ ∃ y, body x = inr y) l →
  Exists (λ x, body x = inl e) l →
  mapM body l = inl e.
Proof.
  induction 1 as [|x l Hx Hl IH]; intros Hex; [by apply Exists_nil in Hex|].
  simpl. destruct Hx as [->|[y Hy]]; [done|].
  rewrite Hy. simpl. apply Exists_cons in Hex as [Hex|Hex]; [congruence|].
  by rewrite IH.
Qed.

Lemma paginate_for_serves {A B} (fetch : option pystr → Page A)
    (body : A → result B) pages final token n :
  serves fetch token pages final →
  length pages < n →
  paginate_for n fetch body token = Some (mapM body (mjoin (fst <$> pages) ++ final)).
Proof.
  revert token n. induction pages as [|[its next] pages IH]; intros token n Hs Hn.
  - destruct n as [|n]; [simpl in Hn; lia|]. simpl in *. rewrite Hs.
    cbn [NextToken items]. by destruct (mapM body final).
  - destruct n as [|n]; [simpl in Hn; lia|]. destruct Hs as [Hp Hs].
    cbn [paginate_for]. rewrite Hp. cbn [NextToken items].
    rewrite (IH (Some next) n) by (done || simpl in Hn; lia).
    cbn [fmap list_fmap fst mjoin list_join].
    rewrite <- app_assoc, (mapM_result_app body its).
    destruct (mapM body its) as [ex|out]; [done|]. simpl.
    by destruct (mapM body _).
Qed.

Lemma paginate_for_more {A B} (fetch : option pystr → Page A) (body : A → result B) n :
  (∀ t, is_Some (NextToken (fetch t))) →
  ∀ token,
    (∀ l, paginate_for n fetch body token ≠ Some (inr l))
    ∧ ((∀ x, ∃ y, body x = inr y) → paginate_for n fetch body token = None).
Proof.
  intros Hf. induction n as [|n IH]; intros token; [done|].
  cbn [paginate_for]. destruct (Hf token) as [t Ht]. rewrite Ht.
  destruct (IH (Some t)) as [IH1 IH2]. split.
  - intros l. destruct (mapM body _) as [ex|out]; [done|].
    destruct (paginate_for n fetch body (Some t)) as [[ex|rest]|] eqn:Hr; try done.
    by destruct (IH1 rest).
  - intros Hbody.
    destruct (mapM_result_inr body (items (fetch token))) as (out & -> & _).
    { apply Forall_forall. intros x _. apply Hbody. }
    by rewrite IH2.
Qed.

(** X15. The loops have no cap of their own: against a provider that
    attaches a continuation token to every page, the read has not
    returned under any bound. Where the records of each page go through
    a loop body, the loop never returns a list either: it is still
    running, unless the body has raised, and it is still running
    whenever the body cannot raise. *)
Theorem paginate_never_ends {A} (fetch : option pystr → Page A) n token :
  (∀ t, is_Some (NextToken (fetch t))) →
  paginate n fetch token = None
  ∧ ∀ B (body : A → result B),
      (∀ l, paginate_for n fetch body token ≠ Some (inr l))
      ∧ ((∀ x, ∃ y, body x = inr y) → paginate_for n fetch body token = None).
Proof.
  intros Hf. split.
  - revert token. induction n as [|n IH]; intros token; [done|].
    simpl. destruct (Hf token) as [t ->]. by rewrite IH.
  - intros B body. by apply paginate_for_more.
Qed.

Lemma paginate_never_ends_witness :
  paginate 100 (λ _, {| items := [py "arn"]; NextToken := Some (py "again") |}) None
    = None.
Proof. apply paginate_never_ends. intros t. by eexists. Defined.

Lemma paginate_serves {A} (fetch : option pystr → Page A) pages final token n :
  serves fetch token pages final →
  length pages < n →
  paginate n fetch token = Some (mjoin (fst <$> pages) ++ final).
Proof.
  revert token n. induction pages as [|[its next] pages IH]; intros token n Hs Hn.
  - destruct n as [|n]; [simpl in Hn; lia|]. simpl in *. by rewrite Hs.
  - destruct n as [|n]; [simpl in Hn; lia|]. destruct Hs as [Hp Hs].
    simpl in *. rewrite Hp. cbn [NextToken items].
    rewrite (IH (Some next) n) by (done || lia). simpl. by rewrite <- app_assoc.
Qed.

(** X16. When the provider answers with several pages, the read requests
    each page with the token of the page before and returns the records
    of all pages in the order received, none dropped and none repeated,
    as soon as the bound exceeds the number of pages with a token. Where
    the records of each page go through a loop body, the outcome is that
    of the body applied to the records of all pages in that order: the
    values it returned, or its first exception. *)
Theorem paginate_gathers_all_pages {A} (fetch : option pystr → Page A)
    pages final token n :
  serves fetch token pages final →
  length pages < n →
  paginate n fetch token = Some (mjoin (fst <$> pages) ++ final)
  ∧ ∀ B (body : A → result B),
      paginate_for n fetch body token
      = Some (mapM body (mjoin (fst <$> pages) ++ final)).
Proof.
  intros Hs Hn. split; [by apply paginate_serves|].
  intros B body. by apply paginate_for_serves.
Qed.

Lemma paginate_gathers_all_pages_witness :
  let fetch := λ token : option pystr,
    match token with
    | None => {| items := [1; 2]; NextToken := Some (py "p2") |}
    | Some _ => {| items := [3]; NextToken := None |}
    end in
  paginate 2 fetch None = Some [1; 2; 3].
Proof.
  intros fetch.
  apply (paginate_gathers_all_pages fetch [([1; 2], py "p2")] [3] None 2).
  - split; reflexivity.
  - simpl. lia.
Defined.

(** ** Tags of a described resource *)

Lemma foldl_insert_lookup (l : list (pystr * pystr)) : ∀ (m : gmap pystr pystr) k,
  is_Some (foldl (λ m kv, <[kv.1 := kv.2]> m) m l !! k)
  ↔ is_Some (m !! k) ∨ k ∈ l.*1.
Proof.
  induction l as [|[k' v'] l IH]; intros m k; simpl.
  - rewrite elem_of_nil. tauto.
  - rewrite IH, elem_of_cons, lookup_insert_is_Some. simpl.
    destruct (decide (k' = k)) as [->|Hne]; intuition congruence.
Qed.

Lemma filter_resource_key_present tagname tags :
  _filter_resource_based_on_tags tagname tags = true
  ↔ ∃ l, tags = Some l ∧ tagname ∈ l.*1.
Proof.
  unfold _filter_resource_based_on_tags, get_tags.
  destruct tags as [l|].
  - pose proof (foldl_insert_lookup l ∅ tagname) as H.
    rewrite lookup_empty in H.
    destruct (foldl _ ∅ l !! tagname) as [v|] eqn:Hv.
    + split; [|done]. intros _. exists l. split; [done|].
      destruct (proj1 H) as [[? [=]]|?]; [by eexists|done].
    + split; [done|]. intros (l' & [= <-] & Hin).
      destruct (proj2 H) as [? [=]]. by right.
  - rewrite lookup_empty. split; [done|]. by intros (l & [=] & _).
Qed.

(** X17. A described resource counts as scheduled exactly when it has a
    list of tags and one of them has the configured key; the value of the
    tag plays no part, so a tag with an empty value counts. *)
Theorem scheduled_iff_key_present tagname tags :
  _filter_resource_based_on_tags tagname tags = true
  ↔ ∃ l, tags = Some l ∧ tagname ∈ l.*1.
Proof. apply filter_resource_key_present. Qed.

(** X18. The tags of a resource are read into a dict in which a key that
    comes more than once in the list keeps the value of its last entry,
    and a resource without a tag list has no tags. *)
Theorem get_tags_last_entry_wins (l : list (pystr * pystr)) k :
  get_tags (Some l) !! k = last (snd <$> filter (λ kv, kv.1 = k) l)
  ∧ get_tags None !! k = None.
Proof.
  split; [|apply lookup_empty]. unfold get_tags.
  induction l as [|[k' v'] l IH] using rev_ind; [apply lookup_empty|].
  rewrite foldl_app, filter_app, fmap_app. simpl.
  destruct (decide (k' = k)) as [->|Hne].
  - rewrite lookup_insert_eq. rewrite filter_cons_True by done.
    simpl. by rewrite last_snoc.
  - rewrite lookup_insert_ne by done. rewrite filter_cons_False by done.
    simpl. by rewrite app_nil_r.
Qed.
(** ** Classification of clusters and services *)

(** X19. With a provider that answers the description of the clusters
    page after page, the clusters described are split between the two
    lists of [mixed_clusters] without loss: the call returns, together
    the lists hold the name of every record once per record, each list
    keeps the order of the records, and a name is in the scheduled list
    exactly when a record of that name carries the schedule tag key. *)
Theorem clusters_are_partitioned api tagname fuel clusters pages final :
  serves (describe_clusters api clusters) None pages final →
  length pages < fuel →
  let records := mjoin (fst <$> pages) ++ final in
  ∃ scheduled unscheduled,
    _validate_cluster_tag_values api tagname fuel clusters = Some (scheduled, unscheduled)
    ∧ scheduled ++ unscheduled ≡ₚ clusterName <$> records
    ∧ scheduled `sublist_of` clusterName <$> records
    ∧ unscheduled `sublist_of` clusterName <$> records
    ∧ (∀ name, name ∈ scheduled ↔
         ∃ cd l, cd ∈ records ∧ clusterName cd = name
                 ∧ cd_tags cd = Some l ∧ tagname ∈ l.*1)
    ∧ (∀ name, name ∈ unscheduled ↔
         ∃ cd, cd ∈ records ∧ clusterName cd = name
               ∧ ¬ ∃ l, cd_tags cd = Some l ∧ tagname ∈ l.*1).
Proof.
  intros Hs Hn records.
  unfold _validate_cluster_tag_values.
  rewrite (paginate_serves _ pages final) by done. fold records. simpl.
  eexists _, _. split; [reflexivity|].
  split_and!.
  - rewrite <- fmap_app. apply fmap_Permutation.
    apply (filter_app_complement
             (λ cd, _filter_resource_based_on_tags tagname (cd_tags cd) = true)).
  - apply fmap_sublist, sublist_filter.
  - apply fmap_sublist, sublist_filter.
  - intros name. rewrite list_elem_of_fmap. split.
    + intros (cd & -> & [Hf Hin]%list_elem_of_filter).
      apply filter_resource_key_present in Hf as (l & Hl & Hk). by exists cd, l.
    + intros (cd & l & Hin & <- & Hl & Hk). exists cd. split; [done|].
      apply list_elem_of_filter. split; [|done].
      apply filter_resource_key_present. by exists l.
  - intros name. rewrite list_elem_of_fmap. split.
    + intros (cd & -> & [Hf Hin]%list_elem_of_filter). exists cd.
      split_and!; [done..|]. by rewrite <- filter_resource_key_present.
    + intros (cd & Hin & <- & Hn'). exists cd. split; [done|].
      apply list_elem_of_filter. split; [|done].
      by rewrite filter_resource_key_present.
Qed.

Lemma clusters_are_partitioned_witness :
  ∃ scheduled unscheduled,
    _validate_cluster_tag_values
      (two_clusters [(py "Schedule", py "office-hours")] []) (py "Schedule") 1
      [cluster_arn_of "alpha"; cluster_arn_of "beta"] = Some (scheduled, unscheduled)
    ∧ scheduled ++ unscheduled ≡ₚ [py "alpha"; py "beta"]
    ∧ (py "alpha" ∈ scheduled ↔
         ∃ cd l, cd ∈ [ {| clusterName := py "alpha";
                           cd_tags := Some [(py "Schedule", py "office-hours")] |};
                        {| clusterName := py "beta"; cd_tags := Some [] |} ]
                 ∧ clusterName cd = py "alpha"
                 ∧ cd_tags cd = Some l ∧ py "Schedule" ∈ l.*1).
Proof.
  destruct (clusters_are_partitioned
              (two_clusters [(py "Schedule", py "office-hours")] [])
              (py "Schedule") 1 [cluster_arn_of "alpha"; cluster_arn_of "beta"]
              [] [ {| clusterName := py "alpha";
                      cd_tags := Some [(py "Schedule", py "office-hours")] |};
                   {| clusterName := py "beta"; cd_tags := Some [] |} ])
    as (scheduled & unscheduled & H1 & H2 & _ & _ & H5 & _).
  - reflexivity.
  - simpl. lia.
  - exists scheduled, unscheduled. split; [exact H1|]. split; [exact H2|apply H5].
Defined.

(** What [_select_resource_data] makes of a record. *)
Lemma select_resource_data_inr tagname rec b lt :
  launchType rec = Some lt →
  ∃ d, _select_resource_data tagname rec b = inr d
       ∧ INST_ID d = serviceArn rec
       ∧ INST_SERVICE_STOP_TAG d = b
       ∧ INST_SCHEDULE d = get_tags (sd_tags rec) !! tagname
       ∧ INST_TAGS d = get_tags (sd_tags rec)
       ∧ INST_IS_RUNNING d = bool_decide (runningCount rec > 0)%Z
       ∧ INST_CURRENT_STATE d
         = (if INST_IS_RUNNING d then STATE_RUNNING else STATE_STOPPED)
       ∧ INST_DESIRED_COUNT d = desiredCount rec
       ∧ INST_INSTANCE_TYPE d = lt.
Proof.
  intros Hlt. unfold _select_resource_data. rewrite Hlt. simpl.
  eexists. split; [reflexivity|]. by simpl.
Qed.

Lemma select_resource_data_inl tagname rec b :
  launchType rec = None →
  _select_resource_data tagname rec b = inl (KeyError (py "launchType")).
Proof. intros Hlt. unfold _select_resource_data. by rewrite Hlt. Qed.

Lemma classify_service_cases tagname rec :
  classify_service tagname rec
  = _select_resource_data tagname rec
      (negb (_filter_resource_based_on_tags tagname (sd_tags rec))).
Proof. unfold classify_service. by destruct (_filter_resource_based_on_tags _ _). Qed.

Lemma Forall2_fmap_eq {A B C} (f : A → C) (g : B → C) l k :
  Forall2 (λ x y, g y = f x) l k → g <$> k = f <$> l.
Proof. induction 1 as [|x y l k H _ IH]; [done|]. rewrite !fmap_cons. by f_equal. Qed.

(** X20. With a provider that answers the listing and the description
    of the services of a cluster page after page, the services of a
    cluster without the schedule tag are all returned when every
    described record has a launch type: one entry per record and in the
    same order; the force-stop marker of an entry is set exactly when
    the service does not carry the schedule tag key, which is exactly
    when its schedule is [None]; its running flag and current state
    follow the running count. When a described record has no launch
    type the call raises [KeyError] and returns no service at all. *)
Theorem untagged_cluster_services_are_classified api tagname fuel cluster
    list_pages list_final pages final :
  let services := mjoin (fst <$> list_pages) ++ list_final in
  let records := mjoin (fst <$> pages) ++ final in
  serves (list_services api cluster) None list_pages list_final →
  serves (describe_services api cluster services) None pages final →
  length list_pages < fuel →
  length pages < fuel →
  (Forall (λ rec, is_Some (launchType rec)) records →
   ∃ result,
     get_schedulable_ecs_services api tagname fuel cluster = Some (inr result)
     ∧ INST_ID <$> result = serviceArn <$> records
     ∧ ∀ i rec d, records !! i = Some rec → result !! i = Some d →
         (INST_SERVICE_STOP_TAG d = true ↔
            ¬ ∃ l, sd_tags rec = Some l ∧ tagname ∈ l.*1)
         ∧ (INST_SERVICE_STOP_TAG d = true ↔ INST_SCHEDULE d = None)
         ∧ (INST_IS_RUNNING d = true ↔ (0 < runningCount rec)%Z)
         ∧ INST_CURRENT_STATE d
           = (if INST_IS_RUNNING d then STATE_RUNNING else STATE_STOPPED)
         ∧ INST_DESIRED_COUNT d = desiredCount rec
         ∧ launchType rec = Some (INST_INSTANCE_TYPE d))
  ∧ (Exists (λ rec, launchType rec = None) records →
     get_schedulable_ecs_services api tagname fuel cluster
       = Some (inl (KeyError (py "launchType")))).
Proof.
  intros services records Hl Hd Hnl Hnd.
  unfold get_schedulable_ecs_services, _validate_service_tag_values.
  rewrite (paginate_serves _ list_pages list_final) by done. fold services. simpl.
  rewrite (paginate_for_serves _ _ pages final) by done. fold records.
  split.
  - intros Hlt.
    destruct (mapM_result_inr (classify_service tagname) records)
      as (result & Hres & Hall).
    { eapply Forall_impl; [exact Hlt|]. intros rec [lt Hrec]. simpl.
      rewrite classify_service_cases.
      destruct (select_resource_data_inr tagname rec
                  (negb (_filter_resource_based_on_tags tagname (sd_tags rec))) lt Hrec)
        as (d & Hd' & _). by exists d. }
    exists result. rewrite Hres. split; [done|]. split.
    + apply Forall2_fmap_eq. eapply Forall2_impl; [exact Hall|].
      intros rec d Hc. simpl in Hc. rewrite classify_service_cases in Hc.
      destruct (launchType rec) as [lt|] eqn:Hrec.
      * destruct (select_resource_data_inr tagname rec
                    (negb (_filter_resource_based_on_tags tagname (sd_tags rec))) lt Hrec)
          as (d' & Hd' & Hid & _). congruence.
      * by rewrite select_resource_data_inl in Hc.
    + intros i rec d Hrec Hd'.
      pose proof (Forall2_lookup_lr _ _ _ _ _ _ Hall Hrec Hd') as Hc. simpl in Hc.
      rewrite classify_service_cases in Hc.
      destruct (launchType rec) as [lt|] eqn:Hlt';
        [|by rewrite select_resource_data_inl in Hc].
      destruct (select_resource_data_inr tagname rec
                  (negb (_filter_resource_based_on_tags tagname (sd_tags rec))) lt Hlt')
        as (d' & Hd'' & _ & Hstop & Hsch & _ & Hrun & Hcur & Hdes & Htype).
      assert (d' = d) as -> by congruence.
      rewrite Hrun in Hcur.
      rewrite <- filter_resource_key_present, Hstop, Hsch, Hrun, Hdes, Htype.
      rewrite negb_true_iff, not_true_iff_false, bool_decide_eq_true.
      split_and!; [done| |lia|done..].
      unfold _filter_resource_based_on_tags.
      by destruct (get_tags (sd_tags rec) !! tagname).
  - intros Hex. f_equal. apply mapM_result_inl; [|].
    + apply Forall_forall. intros rec _. rewrite classify_service_cases.
      destruct (launchType rec) as [lt|] eqn:Hrec.
      * right.
        destruct (select_resource_data_inr tagname rec
                    (negb (_filter_resource_based_on_tags tagname (sd_tags rec))) lt Hrec)
          as (d & Hd' & _). by exists d.
      * left. by apply select_resource_data_inl.
    + eapply Exists_impl; [exact Hex|]. intros rec Hrec. simpl.
      rewrite classify_service_cases. by apply select_resource_data_inl.
Qed.

Lemma untagged_cluster_services_are_classified_witness :
  (∃ result,
     get_schedulable_ecs_services (two_clusters [] []) (py "Schedule") 1 (py "alpha")
       = Some (inr result)
     ∧ INST_ID <$> result
       = [service_arn_of "alpha" "web"; service_arn_of "alpha" "batch"])
  ∧ get_schedulable_ecs_services
      (one_cluster [] [service_record "main" "web" []; spot_record])
      (py "Schedule") 1 (py "main")
    = Some (inl (KeyError (py "launchType"))).
Proof.
  split.
  - destruct (untagged_cluster_services_are_classified (two_clusters [] [])
                (py "Schedule") 1 (py "alpha")
                [] [service_arn_of "alpha" "web"; service_arn_of "alpha" "batch"]
                [] [ service_record "alpha" "web" [(py "Schedule", py "office-hours")];
                     service_record "alpha" "batch" [] ]) as [H _].
    + reflexivity.
    + reflexivity.
    + simpl. lia.
    + simpl. lia.
    + destruct H as (result & H1 & H2 & _).
      * repeat constructor; by eexists.
      * exists result. split; [exact H1|exact H2].
  - destruct (untagged_cluster_services_are_classified
                (one_cluster [] [service_record "main" "web" []; spot_record])
                (py "Schedule") 1 (py "main")
                [] [service_arn_of "main" "web"; service_arn_of "main" "spot"]
                [] [service_record "main" "web" []; spot_record]) as [_ H].
    + reflexivity.
    + reflexivity.
    + simpl. lia.
    + simpl. lia.
    + apply H. apply Exists_cons_tl, Exists_cons_hd. reflexivity.
Defined.

(** X21. With a provider that answers the listing and the description
    of the services of a cluster page after page, the services of a
    cluster that carries the schedule tag are all returned with the
    force-stop marker unset when every described record has a launch
    type, one entry per record and in the same order; the schedule of an
    entry is the value of the service's own schedule tag, so a service
    without that tag is returned with no schedule. When a described
    record has no launch type the call raises [KeyError] and returns no
    service at all. *)
Theorem tagged_cluster_services_keep_their_own_schedule api tagname fuel cluster
    list_pages list_final pages final :
  let services := mjoin (fst <$> list_pages) ++ list_final in
  let records := mjoin (fst <$> pages) ++ final in
  serves (list_services api cluster) None list_pages list_final →
  serves (describe_services api cluster services) None pages final →
  length list_pages < fuel →
  length pages < fuel →
  (Forall (λ rec, is_Some (launchType rec)) records →
   ∃ result,
     get_all_services api tagname fuel cluster = Some (inr result)
     ∧ INST_ID <$> result = serviceArn <$> records
     ∧ Forall (λ d, INST_SERVICE_STOP_TAG d = false) result
     ∧ ∀ i rec d, records !! i = Some rec → result !! i = Some d →
         INST_SCHEDULE d = get_tags (sd_tags rec) !! tagname
         ∧ (INST_SCHEDULE d = None ↔ ¬ ∃ l, sd_tags rec = Some l ∧ tagname ∈ l.*1))
  ∧ (Exists (λ rec, launchType rec = None) records →
     get_all_services api tagname fuel cluster
       = Some (inl (KeyError (py "launchType")))).
Proof.
  intros services records Hl Hd Hnl Hnd.
  unfold get_all_services.
  rewrite (paginate_serves _ list_pages list_final) by done. fold services. simpl.
  rewrite (paginate_for_serves _ _ pages final) by done. fold records.
  split.
  - intros Hlt.
    destruct (mapM_result_inr (λ sd, _select_resource_data tagname sd false) records)
      as (result & Hres & Hall).
    { eapply Forall_impl; [exact Hlt|]. intros rec [lt Hrec]. simpl.
      destruct (select_resource_data_inr tagname rec false lt Hrec) as (d & Hd' & _).
      by exists d. }
    assert (Hfacts : Forall2 (λ rec d, INST_ID d = serviceArn rec
                                       ∧ INST_SERVICE_STOP_TAG d = false
                                       ∧ INST_SCHEDULE d = get_tags (sd_tags rec) !! tagname)
                       records result).
    { eapply Forall2_impl; [exact Hall|]. intros rec d Hc. simpl in Hc.
      destruct (launchType rec) as [lt|] eqn:Hrec;
        [|by rewrite select_resource_data_inl in Hc].
      destruct (select_resource_data_inr tagname rec false lt Hrec)
        as (d' & Hd' & Hid & Hstop & Hsch & _).
      assert (d' = d) as -> by congruence. done. }
    exists result. rewrite Hres. split; [done|]. split_and!.
    + apply Forall2_fmap_eq. eapply Forall2_impl; [exact Hfacts|]. by intros ?? [? _].
    + eapply Forall2_Forall_r; [exact Hfacts|]. apply Forall_true.
      by intros rec d (_ & ? & _).
    + intros i rec d Hrec Hd'.
      destruct (Forall2_lookup_lr _ _ _ _ _ _ Hfacts Hrec Hd') as (_ & _ & Hsch).
      split; [done|]. rewrite Hsch, <- filter_resource_key_present.
      unfold _filter_resource_based_on_tags.
      destruct (get_tags (sd_tags rec) !! tagname); split; done.
  - intros Hex. f_equal. apply mapM_result_inl; [|].
    + apply Forall_forall. intros rec _.
      destruct (launchType rec) as [lt|] eqn:Hrec.
      * right. destruct (select_resource_data_inr tagname rec false lt Hrec)
          as (d & Hd' & _). by exists d.
      * left. by apply select_resource_data_inl.
    + eapply Exists_impl; [exact Hex|]. intros rec Hrec. simpl.
      by apply select_resource_data_inl.
Qed.

Lemma tagged_cluster_services_keep_their_own_schedule_witness :
  (∃ result,
     get_all_services (two_clusters [(py "Schedule", py "office-hours")] [])
       (py "Schedule") 1 (py "alpha") = Some (inr result)
     ∧ Forall (λ d, INST_SERVICE_STOP_TAG d = false) result
     ∧ INST_ID <$> result
       = [service_arn_of "alpha" "web"; service_arn_of "alpha" "batch"])
  ∧ get_all_services
      (one_cluster [(py "Schedule", py "office-hours")] [spot_record])
      (py "Schedule") 1 (py "main")
    = Some (inl (KeyError (py "launchType"))).
Proof.
  split.
  - destruct (tagged_cluster_services_keep_their_own_schedule
                (two_clusters [(py "Schedule", py "office-hours")] [])
                (py "Schedule") 1 (py "alpha")
                [] [service_arn_of "alpha" "web"; service_arn_of "alpha" "batch"]
                [] [ service_record "alpha" "web" [(py "Schedule", py "office-hours")];
                     service_record "alpha" "batch" [] ]) as [H _].
    + reflexivity.
    + reflexivity.
    + simpl. lia.
    + simpl. lia.
    + destruct H as (result & H1 & H2 & H3 & _).
      * repeat constructor; by eexists.
      * exists result. split; [exact H1|]. split; [exact H3|exact H2].
  - destruct (tagged_cluster_services_keep_their_own_schedule
                (one_cluster [(py "Schedule", py "office-hours")] [spot_record])
                (py "Schedule") 1 (py "main")
                [] [service_arn_of "main" "spot"] [] [spot_record]) as [_ H].
    + reflexivity.
    + reflexivity.
    + simpl. lia.
    + simpl. lia.
    + apply H. apply Exists_cons_hd. reflexivity.
Defined.

(** ** What discovery returns *)

Lemma services_of_scheduled_clusters_spec api tagname fuel
    (g : pystr → list InstanceData) clusters : ∀ services,
  (∀ cl, cl ∈ clusters → get_all_services api tagname fuel cl = Some (inr (g cl))) →
  services_of_scheduled_clusters api tagname fuel clusters services
    = Some (inr (services ++ mjoin (g <$> clusters))).
Proof.
  induction clusters as [|cl clusters IH]; intros services Hg; simpl.
  - by rewrite app_nil_r.
  - rewrite (Hg cl) by (by left). simpl. rewrite IH by (intros; apply Hg; by right).
    by rewrite <- app_assoc.
Qed.

Lemma services_of_unscheduled_clusters_spec api tagname fuel
    (f : pystr → list InstanceData) clusters : ∀ services,
  (∀ cl, cl ∈ clusters →
         get_schedulable_ecs_services api tagname fuel cl = Some (inr (f cl))) →
  services_of_unscheduled_clusters api tagname fuel clusters services
    = Some (inr (default services (f <$> last clusters))).
Proof.
  induction clusters as [|cl clusters IH]; intros services Hf; [done|].
  cbn [services_of_unscheduled_clusters].
  rewrite (Hf cl) by (by left). simpl. rewrite IH by (intros; apply Hf; by right).
  destruct clusters as [|c2 cs]; [done|].
  change (last (cl :: c2 :: cs)) with (last (c2 :: cs)).
  destruct (last (c2 :: cs)) eqn:Hl; [done|]. by apply last_None in Hl.
Qed.

(** X22. When every call returns, discovery returns the services of the
    last cluster without the schedule tag, classified, followed by the
    services of every cluster with the schedule tag, cluster after
    cluster; of the clusters without the tag only the last one
    contributes, and with no such cluster only the tagged clusters do. *)
Theorem discovery_returns api tagname fuel scheduled unscheduled f g :
  get_schedulable_ecs_clusters api tagname fuel = Some (scheduled, unscheduled) →
  (∀ cl, cl ∈ unscheduled →
         get_schedulable_ecs_services api tagname fuel cl = Some (inr (f cl))) →
  (∀ cl, cl ∈ scheduled → get_all_services api tagname fuel cl = Some (inr (g cl))) →
  get_schedulable_instances api tagname fuel
    = Some (inr (default [] (f <$> last unscheduled) ++ mjoin (g <$> scheduled))).
Proof.
  intros Hc Hf Hg. unfold get_schedulable_instances. rewrite Hc. simpl.
  rewrite (services_of_unscheduled_clusters_spec _ _ _ f) by done. simpl.
  by rewrite (services_of_scheduled_clusters_spec _ _ _ g).
Qed.

Lemma discovery_returns_witness :
  let api := two_clusters [] [] in
  get_schedulable_instances api (py "Schedule") 1
    = get_schedulable_ecs_services api (py "Schedule") 1 (py "beta").
Proof.
  intros api.
  rewrite (discovery_returns api (py "Schedule") 1 [] [py "alpha"; py "beta"]
             (λ cl, match get_schedulable_ecs_services api (py "Schedule") 1 cl with
                    | Some (inr l) => l
                    | _ => []
                    end)
             (λ _, [])).
  - vm_compute. reflexivity.
  - vm_compute. reflexivity.
  - intros cl Hcl. repeat (apply elem_of_cons in Hcl as [->|Hcl]);
      [vm_compute; reflexivity..|by apply elem_of_nil in Hcl].
  - intros cl Hcl. by apply elem_of_nil in Hcl.
Defined.

(** ** The tag cache *)

Lemma fetch_instance_tags_keeps (P : gmap pystr pystr → Prop) tagname get
    (Hsel : ∀ tags, P (selected_tags tagname tags)) n :
  ∀ token tags reqs ex tags' reqs',
    fetch_instance_tags n get tagname token tags reqs = Some (ex, tags', reqs') →
    map_Forall (λ _, P) tags → map_Forall (λ _, P) tags'.
Proof.
  induction n as [|n IH]; intros token tags reqs ex tags' reqs'; [done|].
  simpl. destruct (get token) as [e|resp]; [by intros [= _ <- _]|].
  assert (Hstore : ∀ l m, map_Forall (λ _, P) m →
                          map_Forall (λ _, P) (store_resources tagname l m)).
  { clear -Hsel. intros l. unfold store_resources.
    induction l as [|res l IHl]; intros m Hm; [done|].
    simpl. apply IHl. by apply map_Forall_insert_2. }
  case_decide.
  - intros Hf Hm. eapply IH; [exact Hf|]. by apply Hstore.
  - intros [= _ <- _] Hm. by apply Hstore.
Qed.

Lemma selected_tags_keys tagname tags k :
  is_Some (selected_tags tagname tags !! k) → k = py "Name" ∨ k = tagname.
Proof.
  unfold selected_tags. rewrite foldl_insert_lookup, lookup_empty.
  intros [[? [=]]|Hk]. apply list_elem_of_fmap in Hk as ([k' v] & -> & Hin).
  apply list_elem_of_filter in Hin as [Hin _]. simpl in *.
  rewrite !elem_of_cons, elem_of_nil in Hin. tauto.
Qed.

(** X23. A read of [rds_resource_tags] that comes back, returning or
    raising, leaves a dict in [self._instance_tags]; every later read
    returns that dict and makes no request, whatever client or tag name it
    is given. After a read that raised, later reads therefore return,
    without raising, the entries stored before the failure. *)
Theorem instance_tags_are_read_once n get tagname self res self' :
  rds_resource_tags n get tagname self = Some (res, self') →
  ∃ tags,
    _instance_tags self' = Some tags
    ∧ (∀ t, res = inr t → t = tags)
    ∧ ∀ n' get' tagname',
        rds_resource_tags n' get' tagname' self' = Some (inr tags, self').
Proof.
  unfold rds_resource_tags.
  destruct (_instance_tags self) as [tags|] eqn:Hc.
  - intros [= <- <-]. exists tags. split_and!; [done|by intros t [= <-]|].
    intros n' get' tagname'. by rewrite Hc.
  - destruct (fetch_instance_tags n get tagname None ∅ (requests self))
      as [[[ex tags] reqs]|]; [|done].
    intros [= <- <-]. exists tags. split_and!; [done| |done].
    destruct ex; by intros t [= <-].
Qed.

Lemma instance_tags_are_read_once_witness :
  let get := λ token : option pystr,
    match token with
    | None => inr {| ResourceTagMappingList :=
                       Some [ {| ResourceARN := py "arn:db1";
                                 rtm_tags := Some [(py "Name", py "db1")] |} ];
                     PaginationToken := Some (py "next") |}
    | Some _ => inl (ClientError (py "ThrottlingException"))
    end in
  ∃ self',
    rds_resource_tags 2 get (py "Schedule") {| _instance_tags := None; requests := [] |}
      = Some (inl (ClientError (py "ThrottlingException")), self')
    ∧ rds_resource_tags 2 get (py "Schedule") self'
      = Some (inr {[ py "arn:db1" := {[ py "Name" := py "db1" ]} ]}, self').
Proof.
  intros get. eexists. split; [vm_compute; reflexivity|].
  match goal with
  | |- rds_resource_tags _ _ _ ?s = _ =>
      destruct (instance_tags_are_read_once 2 get (py "Schedule")
                  {| _instance_tags := None; requests := [] |}
                  (inl (ClientError (py "ThrottlingException"))) s)
        as (tags & Ht & _ & H)
  end.
  - vm_compute. reflexivity.
  - rewrite H. vm_compute in Ht. injection Ht as <-. reflexivity.
Defined.

(** X24. A dict filled by [rds_resource_tags] keeps, for each resource,
    no tag but [Name] and the schedule tag: every other tag of the
    response is left out. *)
Theorem instance_tags_hold_two_keys n get tagname self res self' :
  _instance_tags self = None →
  rds_resource_tags n get tagname self = Some (res, self') →
  ∀ tags arn m k,
    _instance_tags self' = Some tags → tags !! arn = Some m → is_Some (m !! k) →
    k = py "Name" ∨ k = tagname.
Proof.
  intros Hc. unfold rds_resource_tags. rewrite Hc.
  destruct (fetch_instance_tags n get tagname None ∅ (requests self))
    as [[[ex tags0] reqs]|] eqn:Hf; [|done].
  intros [= _ <-] tags arn m k [= <-] Hm Hk.
  pose proof (fetch_instance_tags_keeps
                (λ m, ∀ k, is_Some (m !! k) → k = py "Name" ∨ k = tagname)
                tagname get (selected_tags_keys tagname) n _ _ _ _ _ _ Hf) as Hall.
  eapply (Hall (map_Forall_empty _)); [exact Hm|exact Hk].
Qed.

Lemma instance_tags_hold_two_keys_witness :
  let get := λ _ : option pystr,
    inr {| ResourceTagMappingList :=
             Some [ {| ResourceARN := py "arn:db1";
                       rtm_tags := Some [(py "Name", py "db1"); (py "Owner", py "ops");
                                         (py "Schedule", py "nights")] |} ];
           PaginationToken := Some [] |} in
  ∃ self' tags m,
    rds_resource_tags 1 get (py "Schedule") {| _instance_tags := None; requests := [] |}
      = Some (inr tags, self')
    ∧ tags !! py "arn:db1" = Some m
    ∧ ∀ k, is_Some (m !! k) → k = py "Name" ∨ k = py "Schedule".
Proof.
  intros get.
  destruct (rds_resource_tags 1 get (py "Schedule")
              {| _instance_tags := None; requests := [] |})
    as [[res self']|] eqn:Hr; [|by vm_compute in Hr].
  pose proof (instance_tags_hold_two_keys 1 get (py "Schedule")
                {| _instance_tags := None; requests := [] |} res self' eq_refl Hr) as H.
  vm_compute in Hr. injection Hr as <- <-.
  eexists _, _, _. split; [reflexivity|]. split; [vm_compute; reflexivity|].
  intros k Hk.
  eapply (H _ (py "arn:db1") _ k); [reflexivity|vm_compute; reflexivity|exact Hk].
Defined.

(** ** Stopping a database instance *)

Lemma snapshot_name_no_space stack_name id : chr_space ∉ Rds.snapshot_name stack_name id.
Proof. unfold Rds.snapshot_name. rewrite list_elem_of_filter. by intros [? _]. Qed.

(** X25. [_stop_instance] never raises and always ends with one
    [stop_db_instance] call for the instance, whatever happened to the
    snapshot before. Without [create_rds_snapshot] that is its only call
    and it names no snapshot. With it, the call names the snapshot
    [stack-stopped-id] with the spaces taken out, after one lookup of that
    snapshot and, exactly when the lookup returned a response with the
    field [DBSnapshots], one deletion of it. *)
Theorem rds_stop_is_always_attempted c create_rds_snapshot stack_name inst tr :
  let name := Rds.snapshot_name stack_name (Rds.id inst) in
  ∃ evs,
    Rds._stop_instance c create_rds_snapshot stack_name inst tr = (inr (), tr ++ evs)
    ∧ Rds.calls_of evs
      = (if create_rds_snapshot then
           Rds.describe_db_snapshots name
           :: match c tr (Rds.describe_db_snapshots name) with
              | Rds.Returns (Some _) => [Rds.delete_db_snapshot name]
              | _ => []
              end
         else [])
        ++ [Rds.stop_db_instance (Rds.id inst)
              (if create_rds_snapshot then Some name else None)]
    ∧ chr_space ∉ name.
Proof.
  intros name.
  unfold Rds._stop_instance, Rds.does_snapshot_exist, Rds.try_except, Rds.call,
    Rds.log, Rds.pass, Rds.raise, mbind, Rds.R_bind, mret, Rds.R_ret.
  fold name.
  destruct create_rds_snapshot.
  - destruct (c tr (Rds.describe_db_snapshots name)) as [ex|[snaps|]] eqn:Hd; simpl.
    + destruct (decide (Rds.type_name ex = py "DBSnapshotNotFoundFault")); simpl;
        match goal with |- context [c ?t ?a] => destruct (c t a) end;
        (eexists; split_and!;
         [by rewrite <- ?app_assoc|reflexivity|apply snapshot_name_no_space]).
    + destruct (c (tr ++ [Rds.Call (Rds.describe_db_snapshots name)])
                  (Rds.delete_db_snapshot name)); simpl;
        match goal with |- context [c ?t (Rds.stop_db_instance ?i ?s)] =>
          destruct (c t (Rds.stop_db_instance i s)) end;
        (eexists; split_and!;
         [by rewrite <- ?app_assoc|reflexivity|apply snapshot_name_no_space]).
    + match goal with |- context [c ?t ?a] => destruct (c t a) end;
        (eexists; split_and!;
         [by rewrite <- ?app_assoc|reflexivity|apply snapshot_name_no_space]).
  - simpl. destruct (c tr _);
      (eexists; split_and!;
       [by rewrite <- ?app_assoc|reflexivity|apply snapshot_name_no_space]).
Qed.
